(** * cf-describe: the [describe] plugin of the cf command-line client

    A shallow embedding of [describe.go] and the properties of its
    specification.  The plugin talks to three collaborators that live
    outside the repository:

    - the host runtime, reached through the [plugin.CliConnection]
      interface (class [CliConnection] below);
    - Go's standard library ([encoding/json], [flag], [fmt], [net/url])
      and the [terminal] colour helpers of the cf client (class
      [GoLibraries] below);
    - the operating system: standard output and [os.Exit].

    The first two are taken as parameters, so every theorem holds for every
    behaviour of the host and of the libraries.  The last one is part of
    the process state [Proc].  Only standard output is followed: what the
    [flag] package and the Go runtime write to standard error (usage,
    panic traces) is left out. *)

From Stdlib Require Import ZArith Ascii Floats.PrimFloat.
From stdpp Require Import base option strings list gmap.

Local Open Scope Z_scope.
Local Open Scope string_scope.

(** ** Strings *)

(** The line feed, written [\n] in the Go source. *)
Definition LF : string := String (Ascii.ascii_of_nat 10) EmptyString.

(** [strings.Join(elems, sep)] *)
Fixpoint strings_Join (elems : list string) (sep : string) : string :=
  match elems with
  | [] => ""
  | [e] => e
  | e :: rest => e +:+ sep +:+ strings_Join rest sep
  end.

(** ** Data model *)

(** What [encoding/json] stores in an [interface{}]: [nil] for null,
    [bool], [float64] for numbers, [string], [[]interface{}] for arrays and
    [map[string]interface{}] for objects. *)
#[local] Set Warnings "-register-all".
Inductive Value : Type :=
| VNil
| VBool (b : bool)
| VFloat64 (f : float)
| VString (s : string)
| VSlice (l : list Value)
| VMap (m : gmap string Value).

(** [m[key]] on a [map[string]interface{}]: a missing key, and a nil map,
    give the nil interface. *)
Definition index (m : gmap string Value) (key : string) : Value :=
  default VNil (m !! key).

(** One element of [CurlResponse.Resources]. *)
Record Resource : Type := mkResource {
  Metadata : gmap string Value;
  Entity : gmap string Value
}.

Record CurlResponse : Type := mkCurlResponse {
  TotalResults : Z;
  Resources : list Resource
}.

(** [plugin_models.GetSpaces_Model] *)
Record GetSpaces_Model : Type := mkSpace {
  Guid : string;
  Name : string
}.

(** The zero value [plugin_models.GetSpaces_Model{}]. *)
Definition GetSpaces_Model_zero : GetSpaces_Model :=
  {| Guid := ""; Name := "" |}.

(** The values the three flags of [ParseFlags] hold after a successful
    [flagSet.Parse]. *)
Record FlagValues : Type := mkFlagValues {
  flag_b : string;
  flag_s : string;
  flag_show_guids : bool
}.

(** ** The collaborators *)

(** [plugin.CliConnection], restricted to the three methods the plugin
    calls.  The connection is an object of the host: a call may change it,
    so each method returns the connection to use next.  Every caller drops
    the [error] result ([_]), so only the value is modelled. *)
Class CliConnection (C : Type) : Type := {
  CliCommandWithoutTerminalOutput : C → list string → list string * C;
  Username : C → string * C;
  GetSpaces : C → list GetSpaces_Model * C
}.

(** The library functions the plugin calls.
    - [json_Unmarshal data]: decoding [data] into a [CurlResponse];
      [inl msg] is a non-nil error whose [Error()] is [msg].
    - [flagSet_Parse arguments]: [Parse] on the flag set of [ParseFlags]
      (string flags [b] and [s] with the empty default, boolean flag
      [show-guids] with default [false], [flag.ContinueOnError]).
    - [fmt_Printf_format format]: what [fmt.Printf(format)] writes when it
      is given no operand.
    - [fmt_badverb_s v]: what the verb [%s] writes for an operand that is
      not a string.
    - the three colour wrappers of the [terminal] package. *)
Class GoLibraries : Type := {
  json_Unmarshal : string → string + CurlResponse;
  url_QueryEscape : string → string;
  flagSet_Parse : list string → string + FlagValues;
  fmt_Printf_format : string → string;
  fmt_badverb_s : Value → string;
  terminal_EntityNameColor : string → string;
  terminal_FailureColor : string → string;
  terminal_WarningColor : string → string
}.

(** ** The process *)

(** The fields of [DescribePlugin]. *)
Record DescribePlugin (C : Type) : Type := mkPlugin {
  cliConnection : C;
  brokerName : string;
  serviceName : string;
  showGuids : bool
}.
Arguments mkPlugin {C} _ _ _ _.
Arguments cliConnection {C} _.
Arguments brokerName {C} _.
Arguments serviceName {C} _.
Arguments showGuids {C} _.

(** A call to the host, with what it answered. *)
Inductive HostCall : Type :=
| CallCommand (args : list string) (output : list string)
| CallUsername (name : string)
| CallGetSpaces (spaces : list GetSpaces_Model).

(** The state of one process: the receiver [d], what was written to
    standard output so far, and the calls made to the host so far (a ghost
    log, oldest first). *)
Record Proc (C : Type) : Type := mkProc {
  this : DescribePlugin C;
  stdout : string;
  calls : list HostCall
}.
Arguments mkProc {C} _ _ _.
Arguments this {C} _.
Arguments stdout {C} _.
Arguments calls {C} _.

(** The two run-time panics the plugin can raise. *)
Inductive RuntimePanic : Type :=
| IndexOutOfRange
| InterfaceConversion.

(** How a piece of the program ends: it returns a value, the process
    exits through [os.Exit], or the goroutine panics. *)
Inductive Outcome (C A : Type) : Type :=
| Returned (a : A) (p : Proc C)
| Exited (code : Z) (p : Proc C)
| Panicked (e : RuntimePanic) (p : Proc C).
Arguments Returned {C A} _ _.
Arguments Exited {C A} _ _.
Arguments Panicked {C A} _ _.

(** The state of the process when the piece ended. *)
Definition final {C A} (o : Outcome C A) : Proc C :=
  match o with
  | Returned _ p | Exited _ p | Panicked _ p => p
  end.

Definition Go (C A : Type) : Type := Proc C → Outcome C A.

Definition ret {C A} (a : A) : Go C A := fun p => Returned a p.

Definition bind {C A B} (m : Go C A) (k : A → Go C B) : Go C B :=
  fun p =>
    match m p with
    | Returned a p' => k a p'
    | Exited code p' => Exited code p'
    | Panicked e p' => Panicked e p'
    end.

Declare Scope go_scope.
Delimit Scope go_scope with go.
Notation "x <- m ;; k" := (bind m (fun x => k))
  (at level 100, m at next level, right associativity) : go_scope.
Notation "m ;; k" := (bind m (fun _ => k))
  (at level 100, right associativity) : go_scope.
Local Open Scope go_scope.

Definition panic {C A} (e : RuntimePanic) : Go C A := fun p => Panicked e p.

(** [os.Exit(code)] *)
Definition os_Exit {C A} (code : Z) : Go C A := fun p => Exited code p.

(** Writing to standard output. *)
Definition print {C} (s : string) : Go C unit :=
  fun p => Returned tt (mkProc (this p) (stdout p +:+ s) (calls p)).

(** Reading a field of the receiver. *)
Definition field {C A} (f : DescribePlugin C → A) : Go C A :=
  fun p => Returned (f (this p)) p.

(** [if cond { body }] *)
Definition when {C} (cond : bool) (body : Go C unit) : Go C unit :=
  if cond then body else ret tt.

(** [v.(string)] *)
Definition assert_string {C} (v : Value) : Go C string :=
  match v with
  | VString s => ret s
  | _ => panic InterfaceConversion
  end.

(** The verb [%s] on an [interface{}] operand. *)
Definition verb_s `{GoLibraries} (v : Value) : string :=
  match v with
  | VString s => s
  | _ => fmt_badverb_s v
  end.

(** ** The program *)

Section Program.
Context {C : Type} `{!CliConnection C} `{!GoLibraries}.

(** Calls to the host: the connection of the receiver is used and
    replaced by the one the host hands back; the call is logged. *)
Definition host_call {A} (method : C → A * C) (entry : A → HostCall) : Go C A :=
  fun p =>
    let d := this p in
    let '(a, c) := method (cliConnection d) in
    Returned a
      (mkProc (mkPlugin c (brokerName d) (serviceName d) (showGuids d))
              (stdout p) (calls p ++ [entry a])%list).

(** [func Entity(s string) string] *)
Definition Entity_ (s : string) : string := terminal_EntityNameColor s.

(** [func Fail(err error, message string)] *)
Definition Fail {A} (err message : string) : Go C A :=
  print (terminal_FailureColor "FAILED" +:+ ": " +:+ message
           +:+ ". Error: " +:+ err) ;;
  os_Exit 1.

(** [func Warn(message string)]: the message is the format of
    [fmt.Printf]. *)
Definition Warn {A} (message : string) : Go C A :=
  print (fmt_Printf_format (terminal_WarningColor message)) ;;
  os_Exit 0.

(** [func (d *DescribePlugin) curl(endpoint string) CurlResponse] *)
Definition curl (endpoint : string) : Go C CurlResponse :=
  brokersResponse <-
    host_call (fun c => CliCommandWithoutTerminalOutput c ["curl"; endpoint])
              (CallCommand ["curl"; endpoint]) ;;
  match json_Unmarshal (strings_Join brokersResponse "") with
  | inl err => Fail err "could not unmarshal response"
  | inr curlResponse => ret curlResponse
  end.

(** [func findSpace(spaces, spaceGUID) plugin_models.GetSpaces_Model] *)
Fixpoint findSpace (spaces : list GetSpaces_Model) (spaceGUID : string)
  : GetSpaces_Model :=
  match spaces with
  | [] => GetSpaces_Model_zero
  | s :: rest =>
      if String.eqb (Guid s) spaceGUID then s else findSpace rest spaceGUID
  end.

(** [orgResponse.Resources[0]], and the like. *)
Definition first_resource (r : CurlResponse) : Go C Resource :=
  match Resources r with
  | [] => panic IndexOutOfRange
  | r0 :: _ => ret r0
  end.

(** The loop of [getOrgs], from the map built so far. *)
Fixpoint getOrgs_from (orgs : gmap string string)
    (spaces : list GetSpaces_Model) : Go C (gmap string string) :=
  match spaces with
  | [] => ret orgs
  | space :: rest =>
      orgResponse <- curl ("/v2/organizations?q=space_guid:" +:+ Guid space) ;;
      r0 <- first_resource orgResponse ;;
      name <- assert_string (index (Entity r0) "name") ;;
      getOrgs_from (<[Guid space := name]> orgs) rest
  end.

(** [func (d *DescribePlugin) getOrgs(spaces) map[string]string] *)
Definition getOrgs (spaces : list GetSpaces_Model) : Go C (gmap string string) :=
  getOrgs_from ∅ spaces.

(** [orgs[key]] on a [map[string]string]: [""] for a missing key. *)
Definition org_name (orgs : gmap string string) (key : string) : string :=
  default "" (orgs !! key).

(** The body of the loop over the instances of a plan (lines 119 to
    131); [response] is the buffer. *)
Definition describe_instance (spaces : list GetSpaces_Model)
    (orgs : gmap string string) (response : string) (instance : Resource)
  : Go C string :=
  let response := response +:+ "  " in
  spaceGUID <- assert_string (index (Entity instance) "space_guid") ;;
  let space := findSpace spaces spaceGUID in
  show <- field showGuids ;;
  response <-
    (if show : bool then
       guid <- assert_string (index (Metadata instance) "guid") ;;
       ret (response +:+ "Guid: " +:+ Entity_ guid +:+ " - ")
     else ret response) ;;
  name <- assert_string (index (Entity instance) "name") ;;
  ret (response +:+ "Name: " +:+ Entity_ name
         +:+ " - Org: " +:+ Entity_ (org_name orgs (Guid space))
         +:+ " - Space: " +:+ Entity_ (Name space) +:+ LF).

(** [for _, instance := range instances.Resources] *)
Fixpoint describe_instances (spaces : list GetSpaces_Model)
    (orgs : gmap string string) (response : string)
    (instances : list Resource) : Go C string :=
  match instances with
  | [] => ret response
  | instance :: rest =>
      response <- describe_instance spaces orgs response instance ;;
      describe_instances spaces orgs response rest
  end.

(** The body of the loop over the plans (lines 115 to 133). *)
Definition describe_plan (spaces : list GetSpaces_Model)
    (orgs : gmap string string) (response : string) (plan : Resource)
  : Go C string :=
  url <- assert_string (index (Entity plan) "service_instances_url") ;;
  instances <- curl url ;;
  if (0 <? TotalResults instances)%Z then
    name <- assert_string (index (Entity plan) "name") ;;
    describe_instances spaces orgs
      (response +:+ "Plan " +:+ Entity_ name +:+ ":" +:+ LF)
      (Resources instances)
  else ret response.

(** [for _, plan := range plansResponse.Resources] *)
Fixpoint describe_plans (spaces : list GetSpaces_Model)
    (orgs : gmap string string) (response : string)
    (plans : list Resource) : Go C string :=
  match plans with
  | [] => ret response
  | plan :: rest =>
      response <- describe_plan spaces orgs response plan ;;
      describe_plans spaces orgs response rest
  end.

(** The first line of the report (line 104). *)
Definition report_title (broker username : string) : string :=
  "Describing broker " +:+ Entity_ broker +:+ " as visible by "
    +:+ Entity_ username +:+ LF +:+ LF.

(** [func (d *DescribePlugin) DescribeBroker()] *)
Definition DescribeBroker : Go C unit :=
  broker <- field brokerName ;;
  curlResponse <- curl ("/v2/service_brokers?q=name:" +:+ url_QueryEscape broker) ;;
  when (TotalResults curlResponse =? 0)%Z (Warn (broker +:+ " not found")) ;;
  r0 <- first_resource curlResponse ;;
  let brokerGUID := index (Metadata r0) "guid" in
  username <- host_call Username CallUsername ;;
  let response := report_title broker username in
  plansResponse <-
    curl ("/v2/service_plans?q=service_broker_guid:" +:+ verb_s brokerGUID) ;;
  when (TotalResults plansResponse =? 0)%Z (Warn (broker +:+ " has no plans")) ;;
  spaces <- host_call GetSpaces CallGetSpaces ;;
  orgs <- getOrgs spaces ;;
  response <- describe_plans spaces orgs response (Resources plansResponse) ;;
  print (response +:+ LF).

(** [func (d *DescribePlugin) DescribeService()] *)
Definition DescribeService : Go C unit := ret tt.

(** Assignments to the fields of the receiver. *)
Definition set_cliConnection (c : C) : Go C unit :=
  fun p =>
    let d := this p in
    Returned tt (mkProc (mkPlugin c (brokerName d) (serviceName d) (showGuids d))
                        (stdout p) (calls p)).

Definition set_flags (v : FlagValues) : Go C unit :=
  fun p =>
    let d := this p in
    Returned tt (mkProc (mkPlugin (cliConnection d) (flag_b v) (flag_s v)
                                  (flag_show_guids v))
                        (stdout p) (calls p)).

(** [func (d *DescribePlugin) ParseFlags(args []string)] *)
Definition ParseFlags (args : list string) : Go C unit :=
  match args with
  | [] => panic IndexOutOfRange
  | _ :: arguments =>
      match flagSet_Parse arguments with
      | inl err => Fail err "cannot parse flags"
      | inr values => set_flags values
      end
  end.

(** [func (d *DescribePlugin) Run(cliConnection, args []string)] *)
Definition Run (connection : C) (args : list string) : Go C unit :=
  set_cliConnection connection ;;
  match args with
  | [] => panic IndexOutOfRange
  | command :: _ =>
      if String.eqb command "describe" then
        ParseFlags args ;;
        broker <- field brokerName ;;
        when (negb (String.eqb broker "")) DescribeBroker ;;
        service <- field serviceName ;;
        when (negb (String.eqb service "")) DescribeService
      else ret tt
  end.

End Program.

(** ** The report, as the specification words it

    The specification describes the responses by what they mean: a plan has
    a name and a listing of instances, the listing has a count
    ([total_results]) and instances with a guid, a name and the guid of
    their space.  The report is worded over that reading:
    "for each plan with at least one instance: print the plan name, then
    for each instance [...] print a line containing optionally the instance
    guid, the instance name, the organization name, and the space name". *)

Record Instance : Type := mkInstance {
  instance_guid : string;
  instance_name : string;
  instance_space : string
}.

Record PlanListing : Type := mkListing {
  plan_name : string;
  plan_total : Z;
  plan_instances : list Instance
}.

(** When a resource of an instance listing reads as an instance.  The guid
    is only looked at when guids are shown. *)
Definition is_instance (show : bool) (r : Resource) (i : Instance) : Prop :=
  index (Entity r) "space_guid" = VString (instance_space i)
  ∧ index (Entity r) "name" = VString (instance_name i)
  ∧ (show = true → index (Metadata r) "guid" = VString (instance_guid i)).

Section Report.
Context {C : Type} `{!CliConnection C} `{!GoLibraries}.

Implicit Types (p : Proc C).

(** The part of an instance line that is always there. *)
Definition name_portion (spaces : list GetSpaces_Model)
    (orgs : gmap string string) (i : Instance) : string :=
  let space := findSpace spaces (instance_space i) in
  "Name: " +:+ Entity_ (instance_name i)
    +:+ " - Org: " +:+ Entity_ (org_name orgs (Guid space))
    +:+ " - Space: " +:+ Entity_ (Name space) +:+ LF.

Definition report_line (show : bool) (spaces : list GetSpaces_Model)
    (orgs : gmap string string) (i : Instance) : string :=
  "  " +:+ (if show then "Guid: " +:+ Entity_ (instance_guid i) +:+ " - " else "")
       +:+ name_portion spaces orgs i.

Fixpoint report_lines (show : bool) (spaces : list GetSpaces_Model)
    (orgs : gmap string string) (l : list Instance) : string :=
  match l with
  | [] => ""
  | i :: rest => report_line show spaces orgs i +:+ report_lines show spaces orgs rest
  end.

Definition report_plan (show : bool) (spaces : list GetSpaces_Model)
    (orgs : gmap string string) (pl : PlanListing) : string :=
  if (0 <? plan_total pl)%Z then
    "Plan " +:+ Entity_ (plan_name pl) +:+ ":" +:+ LF
      +:+ report_lines show spaces orgs (plan_instances pl)
  else "".

Fixpoint report (show : bool) (spaces : list GetSpaces_Model)
    (orgs : gmap string string) (pls : list PlanListing) : string :=
  match pls with
  | [] => ""
  | pl :: rest => report_plan show spaces orgs pl +:+ report show spaces orgs rest
  end.

(** *** What the host answered

    The connection may answer the same call differently from one time to
    the next, so the answers a run got are told along the run, from one
    process state to the next. *)

(** What the host answers while the plans are gone through:
    [listed show p plans pls p'] says that from the process state [p] the
    listings of [plans], fetched one after the other, decode and read as
    [pls], and leave the process in [p'].  The name of a plan and the
    instances of its listing are only looked at when the count is
    positive. *)
Inductive listed (show : bool)
  : Proc C → list Resource → list PlanListing → Proc C → Prop :=
| listed_nil p : listed show p [] [] p
| listed_cons p plan url r p1 pl plans pls p' :
    index (Entity plan) "service_instances_url" = VString url →
    curl url p = Returned r p1 →
    TotalResults r = plan_total pl →
    ((0 < plan_total pl)%Z →
       index (Entity plan) "name" = VString (plan_name pl)
       ∧ Forall2 (is_instance show) (Resources r) (plan_instances pl)) →
    listed show p1 plans pls p' →
    listed show p (plan :: plans) (pl :: pls) p'.

(** *** Outcomes *)

(** The receiver keeps its flags. *)
Definition same_flags (p p' : Proc C) : Prop :=
  brokerName (this p') = brokerName (this p)
  ∧ serviceName (this p') = serviceName (this p)
  ∧ showGuids (this p') = showGuids (this p).

(** The process went from [p] to [p'] by a failed decoding: the last call
    to the host is a command whose output does not decode, and the message
    of [Fail] is all that was written. *)
Definition decode_failure (p p' : Proc C) : Prop :=
  ∃ args output err,
    last (calls p') = Some (CallCommand args output)
    ∧ json_Unmarshal (strings_Join output "") = inl err
    ∧ stdout p' = stdout p +:+ terminal_FailureColor "FAILED"
                    +:+ ": could not unmarshal response. Error: " +:+ err.

(** A piece of the program is quiet when it writes nothing unless it
    fails to decode a response, and then exits with code 1. *)
Definition quiet {A} (p : Proc C) (o : Outcome C A) : Prop :=
  match o with
  | Returned _ p' | Panicked _ p' => stdout p' = stdout p ∧ same_flags p p'
  | Exited code p' => code = 1%Z ∧ decode_failure p p'
  end.

(** [DescribeBroker] got as far as the loop over the plans (lines 95 to
    112): the broker was found, the plans are [plans], the user is
    [username], the spaces are [spaces] and their organisations [orgs];
    the process is in state [p5]. *)
Inductive prepared p
  : string → CurlResponse → list GetSpaces_Model → gmap string string → Proc C → Prop :=
| prepared_intro brokers r0 others p1 username p2 plans p3 spaces p4 orgs p5 :
    curl ("/v2/service_brokers?q=name:" +:+ url_QueryEscape (brokerName (this p))) p
      = Returned brokers p1 →
    TotalResults brokers ≠ 0 →
    Resources brokers = r0 :: others →
    host_call Username CallUsername p1 = Returned username p2 →
    curl ("/v2/service_plans?q=service_broker_guid:"
            +:+ verb_s (index (Metadata r0) "guid")) p2
      = Returned plans p3 →
    TotalResults plans ≠ 0 →
    host_call GetSpaces CallGetSpaces p3 = Returned spaces p4 →
    getOrgs spaces p4 = Returned orgs p5 →
    prepared p username plans spaces orgs p5.

(** The two ways [DescribeBroker] finds nothing to show:
    [nothing_to_show p message q] says that from [p] the query that came
    back with no result left the process in [q], and [message] is the
    warning for it. *)
Inductive nothing_to_show p : string → Proc C → Prop :=
| no_broker brokers p1 :
    curl ("/v2/service_brokers?q=name:" +:+ url_QueryEscape (brokerName (this p))) p
      = Returned brokers p1 →
    TotalResults brokers = 0 →
    nothing_to_show p (brokerName (this p) +:+ " not found") p1
| no_plans brokers r0 others p1 username p2 plans p3 :
    curl ("/v2/service_brokers?q=name:" +:+ url_QueryEscape (brokerName (this p))) p
      = Returned brokers p1 →
    TotalResults brokers ≠ 0 →
    Resources brokers = r0 :: others →
    host_call Username CallUsername p1 = Returned username p2 →
    curl ("/v2/service_plans?q=service_broker_guid:"
            +:+ verb_s (index (Metadata r0) "guid")) p2
      = Returned plans p3 →
    TotalResults plans = 0 →
    nothing_to_show p (brokerName (this p) +:+ " has no plans") p3.

(** The buffer only grows. *)
Definition grows (response : string) (o : Outcome C string) : Prop :=
  match o with
  | Returned response' _ => ∃ text, response' = response +:+ text
  | _ => True
  end.

(** An outcome that leaves standard output alone unless it is a failed
    decoding; the process may have returned or left with another exit
    code. *)
Definition hushed {A} (p : Proc C) (o : Outcome C A) : Prop :=
  match o with
  | Returned _ _ => True
  | Exited code p' => code = 1 → decode_failure p p'
  | Panicked _ p' => stdout p' = stdout p
  end.

(** A logged call is a command whose output decodes to a response with at
    least one resource. *)
Definition answered_with_resource (call : HostCall) : Prop :=
  ∃ args output r,
    call = CallCommand args output
    ∧ json_Unmarshal (strings_Join output "") = inr r
    ∧ Resources r ≠ [].

End Report.

(** ** Stand-ins for the collaborators, for the examples

    The theorems below hold for every [CliConnection] and every
    [GoLibraries].  The examples need concrete ones: a host that answers
    from a table, and library functions written after the Go originals as
    far as the examples exercise them. *)

Module Fixture.

(** *** [net/url] *)

Definition upperhex (n : N) : ascii :=
  match String.get (N.to_nat n) "0123456789ABCDEF" with
  | Some c => c
  | None => "0"%char
  end.

(** [shouldEscape(c, encodeQueryComponent)]: everything but the unreserved
    characters. *)
Definition shouldEscape (c : ascii) : bool :=
  let n := Ascii.N_of_ascii c in
  negb (((97 <=? n) && (n <=? 122)) || ((65 <=? n) && (n <=? 90))
        || ((48 <=? n) && (n <=? 57))
        || (n =? 45) || (n =? 95) || (n =? 46) || (n =? 126))%N.

(** [url.QueryEscape] *)
Fixpoint QueryEscape (s : string) : string :=
  match s with
  | EmptyString => EmptyString
  | String c rest =>
      if Ascii.eqb c " "%char then String "+"%char (QueryEscape rest)
      else if shouldEscape c then
        let n := Ascii.N_of_ascii c in
        String "%"%char (String (upperhex (n / 16)%N)
          (String (upperhex (n mod 16)%N) (QueryEscape rest)))
      else String c (QueryEscape rest)
  end.

(** *** [flag] *)

(** [strconv.ParseBool] *)
Definition ParseBool (str : string) : option bool :=
  if bool_decide (str ∈ ["1"; "t"; "T"; "TRUE"; "true"; "True"]) then Some true
  else if bool_decide (str ∈ ["0"; "f"; "F"; "FALSE"; "false"; "False"]) then Some false
  else None.

(** The loop of [parseOne] that cuts [name=value] at the first ['='] that
    is not the first byte: [split_value done rest] has read [done] (in
    reverse) and looks at [rest]. *)
Fixpoint split_value (done rest : string) : string * option string :=
  match rest with
  | EmptyString => (String.rev done, None)
  | String c rest' =>
      if Ascii.eqb c "="%char then (String.rev done, Some rest')
      else split_value (String c done) rest'
  end.

Definition cut_name (name : string) : string * option string :=
  match name with
  | EmptyString => (EmptyString, None)
  | String c rest => split_value (String c EmptyString) rest
  end.

Inductive parsed : Type :=
| Seen (values : FlagValues) (args : list string)
| Stop
| Failed (err : string).

(** [FlagSet.parseOne], for the flag set of [ParseFlags].  The text of
    an error on a boolean value quotes the value with [%q]; the quoting is
    left out here. *)
Definition parseOne (values : FlagValues) (args : list string) : parsed :=
  match args with
  | [] => Stop
  | s :: args =>
      match s with
      | String "-" (String c1 rest1) =>
          let dashes := Ascii.eqb c1 "-"%char in
          if dashes && bool_decide (rest1 = EmptyString) then Stop
          else
            let name := if dashes then rest1 else String c1 rest1 in
            match name with
            | EmptyString | String "-" _ | String "=" _ =>
                Failed ("bad flag syntax: " +:+ s)
            | _ =>
                let '(name, value) := cut_name name in
                if bool_decide (name = "b") then
                  match value, args with
                  | Some v, _ =>
                      Seen (mkFlagValues v (flag_s values) (flag_show_guids values)) args
                  | None, v :: args =>
                      Seen (mkFlagValues v (flag_s values) (flag_show_guids values)) args
                  | None, [] => Failed ("flag needs an argument: -" +:+ name)
                  end
                else if bool_decide (name = "s") then
                  match value, args with
                  | Some v, _ =>
                      Seen (mkFlagValues (flag_b values) v (flag_show_guids values)) args
                  | None, v :: args =>
                      Seen (mkFlagValues (flag_b values) v (flag_show_guids values)) args
                  | None, [] => Failed ("flag needs an argument: -" +:+ name)
                  end
                else if bool_decide (name = "show-guids") then
                  match value with
                  | Some v =>
                      match ParseBool v with
                      | Some b => Seen (mkFlagValues (flag_b values) (flag_s values) b) args
                      | None =>
                          Failed ("invalid boolean value " +:+ v +:+ " for -"
                                    +:+ name +:+ ": parse error")
                      end
                  | None => Seen (mkFlagValues (flag_b values) (flag_s values) true) args
                  end
                else if bool_decide (name = "help") || bool_decide (name = "h") then
                  Failed "flag: help requested"
                else Failed ("flag provided but not defined: -" +:+ name)
            end
      | _ => Stop
      end
  end.

(** The loop of [FlagSet.Parse]; every round that goes on has consumed
    an argument, so [fuel] above the number of arguments is enough. *)
Fixpoint Parse_loop (fuel : nat) (values : FlagValues) (args : list string)
  : string + FlagValues :=
  match fuel with
  | O => inr values
  | S fuel =>
      match parseOne values args with
      | Seen values args => Parse_loop fuel values args
      | Stop => inr values
      | Failed err => inl err
      end
  end.

Definition Parse (arguments : list string) : string + FlagValues :=
  Parse_loop (S (length arguments)) (mkFlagValues "" "" false) arguments.

(** *** [fmt] and [terminal] *)

(** [fmt.Printf(format)] without operands copies a format that holds no
    ['%'].  The examples have no other format; on one with a ['%'] this
    stand-in stops at it. *)
Fixpoint Printf_format (format : string) : string :=
  match format with
  | EmptyString => EmptyString
  | String c rest =>
      if Ascii.eqb c "%"%char then "%!(NOVERB)"
      else String c (Printf_format rest)
  end.

(** [%s] on [nil] and on a [bool]; the other kinds do not occur in the
    examples. *)
Definition badverb_s (v : Value) : string :=
  match v with
  | VNil => "%!s(<nil>)"
  | VBool true => "%!s(bool=true)"
  | VBool false => "%!s(bool=false)"
  | _ => "%!s(?)"
  end.

(** With colours switched off the wrappers of [terminal] return their
    argument. *)
Definition no_colour (s : string) : string := s.

(** *** [encoding/json] *)

(** JSON text is written with ['] for the double quote. *)
Definition json (text : string) : string :=
  let fix go (s : string) : string :=
    match s with
    | EmptyString => EmptyString
    | String c rest =>
        String (if Ascii.eqb c "'"%char then Ascii.ascii_of_nat 34 else c) (go rest)
    end
  in go text.

Definition no_results : string := json "{'total_results':0,'resources':[]}".
Definition brokers_one : string :=
  json "{'total_results':1,'resources':[{'metadata':{'guid':'b1'},'entity':{'name':'mysql'}}]}".
Definition plans_gold : string :=
  json "{'total_results':1,'resources':[{'metadata':{'guid':'p1'},'entity':{'name':'gold','service_instances_url':'/v2/service_plans/p1/service_instances'}}]}".
Definition plans_gold_silver : string :=
  json "{'total_results':2,'resources':[{'metadata':{'guid':'p1'},'entity':{'name':'gold','service_instances_url':'/v2/service_plans/p1/service_instances'}},{'metadata':{'guid':'p2'},'entity':{'name':'silver','service_instances_url':'/v2/service_plans/p2/service_instances'}}]}".
Definition instances_db1 : string :=
  json "{'total_results':1,'resources':[{'metadata':{'guid':'i1'},'entity':{'name':'db1','space_guid':'s1'}}]}".
Definition orgs_acme : string :=
  json "{'total_results':1,'resources':[{'metadata':{'guid':'o1'},'entity':{'name':'acme'}}]}".

Definition resource (metadata entity : list (string * string)) : Resource :=
  {| Metadata := list_to_map (prod_map id VString <$> metadata);
     Entity := list_to_map (prod_map id VString <$> entity) |}.

Definition gold : Resource :=
  resource [("guid", "p1")]
    [("name", "gold"); ("service_instances_url", "/v2/service_plans/p1/service_instances")].
Definition silver : Resource :=
  resource [("guid", "p2")]
    [("name", "silver"); ("service_instances_url", "/v2/service_plans/p2/service_instances")].
Definition db1 : Resource :=
  resource [("guid", "i1")] [("name", "db1"); ("space_guid", "s1")].

(** What [json.Unmarshal] decodes the texts above to; every other text is
    taken for malformed, with the error of [json.Unmarshal] on an empty
    input. *)
Definition decoded : list (string * CurlResponse) :=
  [ (no_results, mkCurlResponse 0 []);
    (brokers_one, mkCurlResponse 1 [resource [("guid", "b1")] [("name", "mysql")]]);
    (plans_gold, mkCurlResponse 1 [gold]);
    (plans_gold_silver, mkCurlResponse 2 [gold; silver]);
    (instances_db1, mkCurlResponse 1 [db1]);
    (orgs_acme, mkCurlResponse 1 [resource [("guid", "o1")] [("name", "acme")]]) ].

Fixpoint assoc {A} (key : string) (table : list (string * A)) : option A :=
  match table with
  | [] => None
  | (k, a) :: rest => if String.eqb k key then Some a else assoc key rest
  end.

Definition Unmarshal (data : string) : string + CurlResponse :=
  match assoc data decoded with
  | Some r => inr r
  | None => inl "unexpected end of JSON input"
  end.

#[global] Instance libraries : GoLibraries := {|
  json_Unmarshal := Unmarshal;
  url_QueryEscape := QueryEscape;
  flagSet_Parse := Parse;
  fmt_Printf_format := Printf_format;
  fmt_badverb_s := badverb_s;
  terminal_EntityNameColor := no_colour;
  terminal_FailureColor := no_colour;
  terminal_WarningColor := no_colour
|}.

(** *** The host *)

(** A host that answers [cf curl endpoint] from a table (nothing for an
    endpoint that is not in it) and does not change. *)
Record Host : Type := mkHost {
  answers : list (string * list string);
  user : string;
  visible_spaces : list GetSpaces_Model
}.

Definition command (h : Host) (args : list string) : list string * Host :=
  match args with
  | [_; endpoint] => (default [] (assoc endpoint (answers h)), h)
  | _ => ([], h)
  end.

#[global] Instance host_connection : CliConnection Host := {|
  CliCommandWithoutTerminalOutput := command;
  Username h := (user h, h);
  GetSpaces h := (visible_spaces h, h)
|}.

(** A process that has not started: zero-valued receiver, nothing
    written, no call made. *)
Definition start (h : Host) : Proc Host := mkProc (mkPlugin h "" "" false) "" [].

(** The process on entry to [DescribeBroker]. *)
Definition describing (h : Host) (broker : string) (guids : bool) : Proc Host :=
  mkProc (mkPlugin h broker "" guids) "" [].

(** The scenario of the specification: broker [mysql], one plan [gold],
    one instance [db1] in space [dev] (guid [s1]) of organisation [acme]. *)
Definition acme_host : Host := {|
  answers :=
    [ ("/v2/service_brokers?q=name:mysql", [brokers_one]);
      ("/v2/service_plans?q=service_broker_guid:b1", [plans_gold]);
      ("/v2/organizations?q=space_guid:s1", [orgs_acme]);
      ("/v2/service_plans/p1/service_instances", [instances_db1]) ];
  user := "admin";
  visible_spaces := [mkSpace "s1" "dev"]
|}.

(** The broker [ghost] is unknown; the broker [mysql] has no plan. *)
Definition planless_host : Host := {|
  answers :=
    [ ("/v2/service_brokers?q=name:ghost", [no_results]);
      ("/v2/service_brokers?q=name:mysql", [brokers_one]);
      ("/v2/service_plans?q=service_broker_guid:b1", [no_results]) ];
  user := "admin";
  visible_spaces := [mkSpace "s1" "dev"]
|}.

(** Two plans, [gold] and [silver], without instances. *)
Definition idle_host : Host := {|
  answers :=
    [ ("/v2/service_brokers?q=name:mysql", [brokers_one]);
      ("/v2/service_plans?q=service_broker_guid:b1", [plans_gold_silver]);
      ("/v2/organizations?q=space_guid:s1", [orgs_acme]);
      ("/v2/service_plans/p1/service_instances", [no_results]);
      ("/v2/service_plans/p2/service_instances", [no_results]) ];
  user := "admin";
  visible_spaces := [mkSpace "s1" "dev"]
|}.

(** Two plans; the listing of [gold] has [db1], the listing of [silver]
    comes back empty, which does not decode. *)
Definition broken_host : Host := {|
  answers :=
    [ ("/v2/service_brokers?q=name:mysql", [brokers_one]);
      ("/v2/service_plans?q=service_broker_guid:b1", [plans_gold_silver]);
      ("/v2/organizations?q=space_guid:s1", [orgs_acme]);
      ("/v2/service_plans/p1/service_instances", [instances_db1]) ];
  user := "admin";
  visible_spaces := [mkSpace "s1" "dev"]
|}.

(** Two spaces; the organisation of the second is not visible. *)
Definition orphan_host : Host := {|
  answers :=
    [ ("/v2/organizations?q=space_guid:s1", [orgs_acme]);
      ("/v2/organizations?q=space_guid:s2", [no_results]) ];
  user := "admin";
  visible_spaces := [mkSpace "s1" "dev"; mkSpace "s2" "qa"]
|}.

End Fixture.

(** ** The rest of the program *)

(** The types of the [plugin] package that [GetMetadata] fills, with the
    fields it sets (the others keep their zero value). *)
Module plugin.

Record VersionType : Type := mkVersionType {
  Major : Z;
  Minor : Z;
  Build : Z
}.

Record Usage : Type := mkUsage {
  Usage_Usage : string;
  Usage_Options : gmap string string
}.

Record Command : Type := mkCommand {
  Command_Name : string;
  Command_HelpText : string;
  Command_UsageDetails : Usage
}.

Record PluginMetadata : Type := mkPluginMetadata {
  PluginMetadata_Name : string;
  PluginMetadata_Version : VersionType;
  PluginMetadata_MinCliVersion : VersionType;
  PluginMetadata_Commands : list Command
}.

End plugin.

(** [func (d *DescribePlugin) GetMetadata() plugin.PluginMetadata] *)
Definition GetMetadata : plugin.PluginMetadata :=
  plugin.mkPluginMetadata "describe"
    (plugin.mkVersionType 1 0 0)
    (plugin.mkVersionType 6 7 0)
    [ plugin.mkCommand "describe"
        "Show information about brokers or service instances"
        (plugin.mkUsage
           "cf describe [-b broker-name] [-s service-instance-name]"
           (<["-b" := "The name of the broker"]>
              (<["-s" := "The name of the service instance"]>
                 (<["-show-guids" := "If set, will display the service instances guid"]>
                    ∅)))) ].

(** [plugin_models.GetOrgs_Model] *)
Module plugin_models.

Record GetOrgs_Model : Type := mkGetOrgs_Model {
  Guid : string;
  Name : string
}.

End plugin_models.

(** [func findOrg(orgs, orgGUID) plugin_models.GetOrgs_Model] *)
Fixpoint findOrg (orgs : list plugin_models.GetOrgs_Model) (orgGUID : string)
  : plugin_models.GetOrgs_Model :=
  match orgs with
  | [] => plugin_models.mkGetOrgs_Model "" ""
  | s :: rest =>
      if String.eqb (plugin_models.Guid s) orgGUID then s else findOrg rest orgGUID
  end.

(** *** The calls a run makes *)

(** The only command the plugin hands to the host is [curl] with one
    endpoint. *)
Definition only_curl (call : HostCall) : Prop :=
  match call with
  | CallCommand args _ => ∃ endpoint : string, args = ["curl"; endpoint]
  | _ => True
  end.

(** The query for the organisation of a space. *)
Definition org_query (space : GetSpaces_Model) (call : HostCall) : Prop :=
  ∃ output,
    call = CallCommand ["curl"; "/v2/organizations?q=space_guid:" +:+ Guid space] output.

(** The query for the instances of a plan: the endpoint is the
    [service_instances_url] of the plan, as it is. *)
Definition listing_query (plan : Resource) (call : HostCall) : Prop :=
  ∃ (url : string) output,
    index (Entity plan) "service_instances_url" = VString url
    ∧ call = CallCommand ["curl"; url] output.

(** The map [getOrgs] builds from the names answered for the spaces, in
    the order of the spaces: a later space with the same guid takes the
    entry over. *)
Fixpoint org_map (orgs : gmap string string) (spaces : list GetSpaces_Model)
    (names : list string) : gmap string string :=
  match spaces, names with
  | space :: spaces, name :: names => org_map (<[Guid space := name]> orgs) spaces names
  | _, _ => orgs
  end.

Section Calls.
Context {C : Type} `{!CliConnection C} `{!GoLibraries}.

Implicit Types (p : Proc C).

(** What the host answers while the organisations are asked for:
    [orgs_answered p spaces names p'] says that from [p] the queries for
    [spaces], one after the other, decode, have a first resource, and that
    the name in it is a string, the one of [names] at the place of the
    space; the process is left in [p']. *)
Inductive orgs_answered
  : Proc C → list GetSpaces_Model → list string → Proc C → Prop :=
| orgs_answered_nil p : orgs_answered p [] [] p
| orgs_answered_cons p space r r0 others (name : string) p1 spaces names p' :
    curl ("/v2/organizations?q=space_guid:" +:+ Guid space) p = Returned r p1 →
    Resources r = r0 :: others →
    index (Entity r0) "name" = VString name →
    orgs_answered p1 spaces names p' →
    orgs_answered p (space :: spaces) (name :: names) p'.

(** The calls made since [p] are [new], whatever the outcome. *)
Definition called {A} (p : Proc C) (new : list HostCall) (o : Outcome C A) : Prop :=
  calls (final o) = (calls p ++ new)%list.

(** Since [p], the outcome made only calls that satisfy [P]. *)
Definition calls_only {A} (P : HostCall → Prop) (p : Proc C) (o : Outcome C A) : Prop :=
  ∃ new, called p new o ∧ Forall P new.

End Calls.

(** *** More stand-ins

    Responses of another shape than those above, and the hosts that give
    them.  The decoder is the one above with three more texts. *)

Module Quirks.

Definition brokers_counted : string :=
  Fixture.json "{'total_results':1,'resources':[]}".
Definition plans_gold_bare : string :=
  Fixture.json "{'total_results':2,'resources':[{'metadata':{'guid':'p1'},'entity':{'name':'gold','service_instances_url':'/v2/service_plans/p1/service_instances'}},{'metadata':{'guid':'p2'},'entity':{'name':'silver'}}]}".
Definition orgs_initech : string :=
  Fixture.json "{'total_results':1,'resources':[{'metadata':{'guid':'o2'},'entity':{'name':'initech'}}]}".

Definition bare_silver : Resource :=
  Fixture.resource [("guid", "p2")] [("name", "silver")].

Definition decoded : list (string * CurlResponse) :=
  [ (brokers_counted, mkCurlResponse 1 []);
    (plans_gold_bare, mkCurlResponse 2 [Fixture.gold; bare_silver]);
    (orgs_initech,
     mkCurlResponse 1 [Fixture.resource [("guid", "o2")] [("name", "initech")]]) ].

Definition Unmarshal (data : string) : string + CurlResponse :=
  match Fixture.assoc data decoded with
  | Some r => inr r
  | None => Fixture.Unmarshal data
  end.

Definition libraries : GoLibraries := {|
  json_Unmarshal := Unmarshal;
  url_QueryEscape := Fixture.QueryEscape;
  flagSet_Parse := Fixture.Parse;
  fmt_Printf_format := Fixture.Printf_format;
  fmt_badverb_s := Fixture.badverb_s;
  terminal_EntityNameColor := Fixture.no_colour;
  terminal_FailureColor := Fixture.no_colour;
  terminal_WarningColor := Fixture.no_colour
|}.

(** The answer for the broker counts one result and lists none. *)
Definition counted_host : Fixture.Host := {|
  Fixture.answers := [ ("/v2/service_brokers?q=name:mysql", [brokers_counted]) ];
  Fixture.user := "admin";
  Fixture.visible_spaces := [mkSpace "s1" "dev"]
|}.

(** Two plans; [silver] has no [service_instances_url]. *)
Definition bare_host : Fixture.Host := {|
  Fixture.answers :=
    [ ("/v2/service_brokers?q=name:mysql", [Fixture.brokers_one]);
      ("/v2/service_plans?q=service_broker_guid:b1", [plans_gold_bare]);
      ("/v2/organizations?q=space_guid:s1", [Fixture.orgs_acme]);
      ("/v2/service_plans/p1/service_instances", [Fixture.instances_db1]) ];
  Fixture.user := "admin";
  Fixture.visible_spaces := [mkSpace "s1" "dev"]
|}.

(** Two spaces, [dev] of [acme] and [qa] of [initech]. *)
Definition two_org_host : Fixture.Host := {|
  Fixture.answers :=
    [ ("/v2/organizations?q=space_guid:s1", [Fixture.orgs_acme]);
      ("/v2/organizations?q=space_guid:s2", [orgs_initech]) ];
  Fixture.user := "admin";
  Fixture.visible_spaces := [mkSpace "s1" "dev"; mkSpace "s2" "qa"]
|}.

End Quirks.

(** ** Properties *)

Lemma append_assoc (a b c : string) : (a +:+ b) +:+ c = a +:+ b +:+ c.
Proof.
  induction a as [|x a IH]; [reflexivity|].
  change (String x ((a +:+ b) +:+ c) = String x (a +:+ b +:+ c)).
  by rewrite IH.
Qed.

Lemma append_empty_r (a : string) : a +:+ "" = a.
Proof.
  induction a as [|x a IH]; [reflexivity|].
  change (String x (a +:+ "") = String x a). by rewrite IH.
Qed.

Section Properties.
Context {C : Type} `{!CliConnection C} `{!GoLibraries}.

Implicit Types (p : Proc C) (spaces : list GetSpaces_Model).

(** *** [findSpace] *)

(** C9. [findSpace] returns the first space of the list whose guid is the
    one asked for: the list splits into spaces with another guid, the
    space returned, and the rest.  When no space of the list has the guid,
    it returns the zero value [GetSpaces_Model{}]; there is no error
    result. *)
Theorem findSpace_first_match spaces (spaceGUID : string) :
  (∃ before s rest,
      spaces = (before ++ s :: rest)%list
      ∧ Forall (λ x, Guid x ≠ spaceGUID) before
      ∧ Guid s = spaceGUID
      ∧ findSpace spaces spaceGUID = s)
  ∨ (Forall (λ x, Guid x ≠ spaceGUID) spaces
     ∧ findSpace spaces spaceGUID = GetSpaces_Model_zero).
Proof.
  induction spaces as [|s spaces IH]; [right; by split|].
  simpl. destruct (String.eqb_spec (Guid s) spaceGUID) as [Heq|Hne].
  - left. exists [], s, spaces. by repeat split.
  - destruct IH as [(before & s' & rest & -> & Hbefore & Hs' & Hfind)|[Hall Hfind]].
    + left. exists (s :: before), s', rest. repeat split; auto.
    + right. split; auto.
Qed.

(** *** [DescribeService] *)

(** C8. [DescribeService] returns at once in every state of the process:
    nothing is written, no call is made, no field changes, and it neither
    exits nor panics.  So does the whole [-s] path: when the arguments
    after [describe] parse and name a service instance and no broker,
    [Run] returns with standard output and the log of host calls as they
    were, whatever the name. *)
Theorem DescribeService_no_output p :
  DescribeService p = Returned tt p
  ∧ ∀ (connection : C) (arguments : list string) (service : string) (guids : bool),
      flagSet_Parse arguments = inr (mkFlagValues "" service guids) →
      Run connection ("describe" :: arguments) p
      = Returned tt
          (mkProc (mkPlugin connection "" service guids) (stdout p) (calls p)).
Proof.
  split; [reflexivity|].
  intros connection arguments service guids Hparse.
  unfold Run, ParseFlags, bind, set_cliConnection. simpl. rewrite Hparse.
  simpl. unfold when. by destruct (negb (service =? ""))%string.
Qed.

(** *** [Run] and [ParseFlags] *)

(** C4. When the arguments after [describe] do not parse, [Run] ends the
    process with exit code 1; the failure message is all that is written,
    and the log of host calls is the one [Run] started with: no call was
    attempted. *)
Theorem Run_describe_unparsable_flags (connection : C)
    (arguments : list string) (err : string) p :
  flagSet_Parse arguments = inl err →
  ∃ p',
    Run connection ("describe" :: arguments) p = Exited 1 p'
    ∧ calls p' = calls p
    ∧ stdout p' = stdout p +:+ terminal_FailureColor "FAILED"
                    +:+ ": cannot parse flags. Error: " +:+ err.
Proof.
  intros Herr. eexists. unfold Run, ParseFlags, bind, set_cliConnection.
  simpl. rewrite Herr. unfold Fail, bind, print, os_Exit. simpl.
  repeat split.
Qed.

(** C5. When the arguments after [describe] parse and give neither a
    broker nor a service instance, [Run] returns without a call to the host
    and without output. *)
Theorem Run_describe_without_names (connection : C)
    (arguments : list string) (guids : bool) p :
  flagSet_Parse arguments = inr (mkFlagValues "" "" guids) →
  Run connection ("describe" :: arguments) p
  = Returned tt (mkProc (mkPlugin connection "" "" guids) (stdout p) (calls p)).
Proof.
  intros Hparse. unfold Run, ParseFlags, bind, set_cliConnection.
  simpl. by rewrite Hparse.
Qed.

(** *** Quiet pieces *)

Lemma same_flags_refl p : same_flags p p.
Proof. by repeat split. Qed.

Lemma same_flags_trans p p1 p2 :
  same_flags p p1 → same_flags p1 p2 → same_flags p p2.
Proof.
  intros (Hb & Hs & Hg) (Hb' & Hs' & Hg').
  repeat split; congruence.
Qed.

Lemma decode_failure_from p p1 p' :
  stdout p1 = stdout p → decode_failure p1 p' → decode_failure p p'.
Proof.
  intros Hout (args & output & err & Hlast & Herr & Hwritten).
  exists args, output, err. by rewrite <- Hout.
Qed.

Lemma quiet_from {A} p p1 (o : Outcome C A) :
  stdout p1 = stdout p → same_flags p p1 → quiet p1 o → quiet p o.
Proof.
  intros Hout Hflags. destruct o as [a p'|code p'|e p']; simpl.
  - intros [Hout' Hflags']. split; [congruence|]. by eapply same_flags_trans.
  - intros [Hcode Hfail]. split; [done|]. by eapply decode_failure_from.
  - intros [Hout' Hflags']. split; [congruence|]. by eapply same_flags_trans.
Qed.

Lemma quiet_ret {A} (a : A) p : quiet p (ret a p).
Proof. split; [done|apply same_flags_refl]. Qed.

Lemma quiet_panic {A} e p : quiet p (panic (A:=A) e p).
Proof. split; [done|apply same_flags_refl]. Qed.

Lemma quiet_bind {A B} (m : Go C A) (k : A → Go C B) p :
  quiet p (m p) →
  (∀ a p1, m p = Returned a p1 → quiet p1 (k a p1)) →
  quiet p (bind m k p).
Proof.
  intros Hm Hk. unfold bind. destruct (m p) as [a p1|code p1|e p1] eqn:Hmp.
  - destruct Hm as [Hout Hflags]. eapply quiet_from; eauto.
  - exact Hm.
  - exact Hm.
Qed.

Lemma quiet_field {A} (f : DescribePlugin C → A) p : quiet p (field f p).
Proof. split; [done|apply same_flags_refl]. Qed.

Lemma quiet_assert_string (v : Value) p : quiet p (assert_string v p).
Proof. destruct v; first [apply quiet_ret | apply quiet_panic]. Qed.

Lemma quiet_first_resource (r : CurlResponse) p : quiet p (first_resource r p).
Proof.
  unfold first_resource. destruct (Resources r); [apply quiet_panic|apply quiet_ret].
Qed.

(** A call to the host returns, with the answer of the host logged. *)
Lemma host_call_returns {A} (method : C → A * C) (entry : A → HostCall) p :
  host_call method entry p
  = Returned (method (cliConnection (this p))).1
      (mkProc (mkPlugin (method (cliConnection (this p))).2
                 (brokerName (this p)) (serviceName (this p)) (showGuids (this p)))
              (stdout p) (calls p ++ [entry (method (cliConnection (this p))).1])).
Proof. unfold host_call. by destruct (method _). Qed.

Lemma host_call_logged {A} (method : C → A * C) (entry : A → HostCall) p a p' :
  host_call method entry p = Returned a p' →
  calls p' = (calls p ++ [entry a])%list.
Proof. rewrite host_call_returns. by intros [= <- <-]. Qed.

Lemma quiet_host_call {A} (method : C → A * C) (entry : A → HostCall) p :
  quiet p (host_call method entry p).
Proof. rewrite host_call_returns. by repeat split. Qed.

Lemma quiet_curl (endpoint : string) p : quiet p (curl endpoint p).
Proof.
  unfold curl, bind. rewrite host_call_returns.
  set (answer := CliCommandWithoutTerminalOutput _ _).
  destruct (json_Unmarshal (strings_Join answer.1 "")) as [err|r] eqn:Hjson.
  - split; [done|]. exists ["curl"; endpoint], answer.1, err.
    split; [apply last_snoc|]. by split.
  - by repeat split.
Qed.

(** A query that returned was logged, and its output decodes to what it
    returned. *)
Lemma curl_returned (endpoint : string) p r p' :
  curl endpoint p = Returned r p' →
  ∃ output,
    json_Unmarshal (strings_Join output "") = inr r
    ∧ calls p' = (calls p ++ [CallCommand ["curl"; endpoint] output])%list.
Proof.
  unfold curl, bind. rewrite host_call_returns.
  set (answer := CliCommandWithoutTerminalOutput _ _).
  destruct (json_Unmarshal (strings_Join answer.1 "")) as [err|r'] eqn:Hjson; [done|].
  intros [= <- <-]. by exists answer.1.
Qed.

Lemma quiet_getOrgs_from spaces : ∀ orgs p, quiet p (getOrgs_from orgs spaces p).
Proof.
  induction spaces as [|space spaces IH]; intros orgs p; cbn [getOrgs_from].
  - apply quiet_ret.
  - apply quiet_bind; [apply quiet_curl|]. intros r p1 _.
    apply quiet_bind; [apply quiet_first_resource|]. intros r0 p2 _.
    apply quiet_bind; [apply quiet_assert_string|]. intros name p3 _.
    apply IH.
Qed.

Lemma quiet_describe_instance spaces orgs response instance p :
  quiet p (describe_instance spaces orgs response instance p).
Proof.
  unfold describe_instance.
  apply quiet_bind; [apply quiet_assert_string|]. intros spaceGUID p1 _.
  apply quiet_bind; [apply quiet_field|]. intros show p2 _.
  apply quiet_bind.
  { destruct show; [|apply quiet_ret].
    apply quiet_bind; [apply quiet_assert_string|]. intros; apply quiet_ret. }
  intros response' p3 _.
  apply quiet_bind; [apply quiet_assert_string|]. intros; apply quiet_ret.
Qed.

Lemma quiet_describe_instances spaces orgs instances :
  ∀ response p, quiet p (describe_instances spaces orgs response instances p).
Proof.
  induction instances as [|instance instances IH]; intros response p;
    cbn [describe_instances].
  - apply quiet_ret.
  - apply quiet_bind; [apply quiet_describe_instance|]. intros; apply IH.
Qed.

Lemma quiet_describe_plan spaces orgs response plan p :
  quiet p (describe_plan spaces orgs response plan p).
Proof.
  unfold describe_plan.
  apply quiet_bind; [apply quiet_assert_string|]. intros url p1 _.
  apply quiet_bind; [apply quiet_curl|]. intros instances p2 _.
  destruct (0 <? TotalResults instances)%Z; [|apply quiet_ret].
  apply quiet_bind; [apply quiet_assert_string|]. intros name p3 _.
  apply quiet_describe_instances.
Qed.

Lemma quiet_describe_plans spaces orgs plans :
  ∀ response p, quiet p (describe_plans spaces orgs response plans p).
Proof.
  induction plans as [|plan plans IH]; intros response p; cbn [describe_plans].
  - apply quiet_ret.
  - apply quiet_bind; [apply quiet_describe_plan|]. intros; apply IH.
Qed.

(** What a piece that returned kept. *)
Lemma quiet_returned {A} (m : Go C A) p a p' :
  quiet p (m p) → m p = Returned a p' →
  stdout p' = stdout p
  ∧ brokerName (this p') = brokerName (this p)
  ∧ showGuids (this p') = showGuids (this p).
Proof. intros Hq Hm. rewrite Hm in Hq. destruct Hq as (? & ? & ? & ?). done. Qed.

(** *** The buffer *)

(** An instance that reads as [i] adds the line of [i] to the buffer; the
    process state stays as it is. *)
Lemma describe_instance_read spaces orgs response r i p :
  is_instance (showGuids (this p)) r i →
  describe_instance spaces orgs response r p
  = Returned (response +:+ report_line (showGuids (this p)) spaces orgs i) p.
Proof.
  intros (Hspace & Hname & Hguid).
  unfold describe_instance, bind, field. rewrite Hspace. simpl.
  unfold report_line, name_portion.
  destruct (showGuids (this p)) eqn:Hshow.
  - rewrite Hguid by done. simpl. rewrite Hname. simpl. unfold ret.
    f_equal. by rewrite !append_assoc.
  - simpl. rewrite Hname. simpl. unfold ret. f_equal. by rewrite !append_assoc.
Qed.

Lemma describe_instances_read spaces orgs p :
  ∀ rs l response,
    Forall2 (is_instance (showGuids (this p))) rs l →
    describe_instances spaces orgs response rs p
    = Returned (response +:+ report_lines (showGuids (this p)) spaces orgs l) p.
Proof.
  intros rs l response Hall. revert response.
  induction Hall as [|r i rs l Hr _ IH]; intros response; simpl.
  - unfold ret. by rewrite append_empty_r.
  - unfold bind. rewrite (describe_instance_read _ _ _ _ i) by done.
    rewrite IH. by rewrite append_assoc.
Qed.

Lemma describe_plans_listed spaces orgs show :
  ∀ p plans pls p',
    listed show p plans pls p' →
    showGuids (this p) = show →
    ∀ response,
      describe_plans spaces orgs response plans p
      = Returned (response +:+ report show spaces orgs pls) p'.
Proof.
  intros p plans pls p' Hlisted.
  induction Hlisted as [p|p plan url r p1 pl plans pls p' Hurl Hcurl Htotal Hread _ IH];
    intros Hshow response; simpl.
  - unfold ret. by rewrite append_empty_r.
  - destruct (quiet_returned _ _ _ _ (quiet_curl url p) Hcurl) as (_ & _ & Hshow1).
    unfold bind at 1. unfold describe_plan, bind at 1. rewrite Hurl. simpl.
    unfold bind at 1. rewrite Hcurl. rewrite Htotal.
    unfold report_plan.
    destruct (0 <? plan_total pl)%Z eqn:Hpos.
    + apply Z.ltb_lt in Hpos. destruct (Hread Hpos) as [Hname Hinstances].
      unfold bind at 1. rewrite Hname. simpl.
      rewrite (describe_instances_read _ _ _ _ (plan_instances pl)) by congruence.
      rewrite IH by congruence. rewrite Hshow1, Hshow. f_equal.
      by rewrite !append_assoc.
    + unfold ret. rewrite IH by congruence. done.
Qed.

Lemma prepared_kept p username plans spaces orgs p5 :
  prepared p username plans spaces orgs p5 →
  stdout p5 = stdout p ∧ showGuids (this p5) = showGuids (this p).
Proof.
  intros [brokers r0 others p1 username' p2 plans' p3 spaces' p4 orgs' p5'
            Hbrokers _ _ Huser Hplans _ Hspaces Horgs].
  destruct (quiet_returned _ _ _ _ (quiet_curl _ p) Hbrokers) as (? & _ & ?).
  destruct (quiet_returned _ _ _ _ (quiet_host_call _ _ p1) Huser) as (? & _ & ?).
  destruct (quiet_returned _ _ _ _ (quiet_curl _ p2) Hplans) as (? & _ & ?).
  destruct (quiet_returned _ _ _ _ (quiet_host_call _ _ p3) Hspaces) as (? & _ & ?).
  destruct (quiet_returned _ _ _ _ (quiet_getOrgs_from _ _ p4) Horgs) as (? & _ & ?).
  split; congruence.
Qed.

(** From there the outcome of [DescribeBroker] is that of the loop and of
    [Println]. *)
Lemma DescribeBroker_prepared p username plans spaces orgs p5 :
  prepared p username plans spaces orgs p5 →
  DescribeBroker p
  = bind (describe_plans spaces orgs (report_title (brokerName (this p)) username)
            (Resources plans))
         (λ response, print (response +:+ LF)) p5.
Proof.
  intros [brokers r0 others p1 username' p2 plans' p3 spaces' p4 orgs' p5'
            Hbrokers Hfound Hfirst Huser Hplans Hsome Hspaces Horgs].
  unfold DescribeBroker. unfold bind at 1. unfold field at 1.
  unfold bind at 1. rewrite Hbrokers.
  apply Z.eqb_neq in Hfound, Hsome.
  unfold bind at 1. rewrite Hfound. unfold when at 1, ret at 1.
  unfold bind at 1, first_resource at 1. rewrite Hfirst. unfold ret at 1.
  unfold bind at 1. rewrite Huser.
  unfold bind at 1. rewrite Hplans.
  unfold bind at 1. rewrite Hsome. unfold when at 1, ret at 1.
  unfold bind at 1. rewrite Hspaces.
  unfold bind at 1. rewrite Horgs. reflexivity.
Qed.

Lemma DescribeBroker_listed p username plans spaces orgs p5 pls p6 :
  prepared p username plans spaces orgs p5 →
  listed (showGuids (this p)) p5 (Resources plans) pls p6 →
  DescribeBroker p
  = Returned tt
      (mkProc (this p6)
         (stdout p +:+ report_title (brokerName (this p)) username
            +:+ report (showGuids (this p)) spaces orgs pls +:+ LF)
         (calls p6)).
Proof.
  intros Hprepared Hlisted.
  rewrite (DescribeBroker_prepared _ _ _ _ _ _ Hprepared).
  destruct (prepared_kept _ _ _ _ _ _ Hprepared) as [Hout Hshow].
  pose proof (describe_plans_listed spaces orgs _ _ _ _ _ Hlisted Hshow
                (report_title (brokerName (this p)) username)) as Hloop.
  destruct (quiet_returned _ _ _ _ (quiet_describe_plans _ _ _ _ p5) Hloop)
    as (Hout6 & _ & _).
  unfold bind. rewrite Hloop. unfold print. rewrite Hout6, Hout.
  by rewrite !append_assoc.
Qed.

(** *** Nothing to show *)

(** C2. When the query for the broker comes back with no result, or the
    broker is there and the query for its plans comes back with no result,
    [DescribeBroker] ends the process with exit code 0.  What it wrote is
    the warning, and the report is not among it; the calls to the host are
    those made up to the query that came back empty (the query for the
    broker alone, or that query, the user name and the query for the
    plans): none follows. *)
Theorem DescribeBroker_nothing_to_show p (message : string) (q : Proc C) :
  nothing_to_show p message q →
  DescribeBroker p
  = Exited 0
      (mkProc (this q)
         (stdout p +:+ fmt_Printf_format (terminal_WarningColor message))
         (calls q))
  ∧ ∃ new,
      calls q = (calls p ++ new)%list
      ∧ ((∃ output,
            new = [CallCommand
                     ["curl"; "/v2/service_brokers?q=name:"
                                +:+ url_QueryEscape (brokerName (this p))]
                     output])
         ∨ (∃ output username (endpoint : string) output',
              new = [CallCommand
                       ["curl"; "/v2/service_brokers?q=name:"
                                  +:+ url_QueryEscape (brokerName (this p))]
                       output;
                     CallUsername username;
                     CallCommand ["curl"; endpoint] output'])).
Proof.
  intros Hnothing. split; [|destruct Hnothing as
         [brokers p1 Hbrokers Hnone
         |brokers r0 others p1 username p2 plans p3
            Hbrokers Hfound Hfirst Huser Hplans Hnone]].
  2:{ destruct (curl_returned _ _ _ _ Hbrokers) as (output & _ & Hcalls).
      eexists. split; [exact Hcalls|]. left. by exists output. }
  2:{ destruct (curl_returned _ _ _ _ Hbrokers) as (output & _ & Hcalls1).
      destruct (curl_returned _ _ _ _ Hplans) as (output' & _ & Hcalls3).
      pose proof (host_call_logged _ _ _ _ _ Huser) as Hcalls2.
      rewrite Hcalls2, Hcalls1, <- !app_assoc in Hcalls3.
      eexists. split; [exact Hcalls3|]. right. by eexists _, _, _, _. }
  destruct Hnothing as
         [brokers p1 Hbrokers Hnone
         |brokers r0 others p1 username p2 plans p3
            Hbrokers Hfound Hfirst Huser Hplans Hnone].
  - destruct (quiet_returned _ _ _ _ (quiet_curl _ p) Hbrokers) as (Hout & _ & _).
    unfold DescribeBroker. unfold bind at 1. unfold field at 1.
    unfold bind at 1. rewrite Hbrokers.
    unfold bind at 1. rewrite Hnone. simpl.
    unfold Warn, bind, print, os_Exit. by rewrite Hout.
  - destruct (quiet_returned _ _ _ _ (quiet_curl _ p) Hbrokers) as (Hout1 & _ & _).
    destruct (quiet_returned _ _ _ _ (quiet_host_call _ _ p1) Huser) as (Hout2 & _ & _).
    destruct (quiet_returned _ _ _ _ (quiet_curl _ p2) Hplans) as (Hout3 & _ & _).
    apply Z.eqb_neq in Hfound.
    unfold DescribeBroker. unfold bind at 1. unfold field at 1.
    unfold bind at 1. rewrite Hbrokers.
    unfold bind at 1. rewrite Hfound. unfold when at 1, ret at 1.
    unfold bind at 1, first_resource at 1. rewrite Hfirst. unfold ret at 1.
    unfold bind at 1. rewrite Huser.
    unfold bind at 1. rewrite Hplans.
    unfold bind at 1. rewrite Hnone. simpl.
    unfold Warn, bind, print, os_Exit. rewrite Hout3, Hout2, Hout1. done.
Qed.

Lemma grows_more (response text : string) (o : Outcome C string) :
  grows (response +:+ text) o → grows response o.
Proof.
  destruct o as [response' p'| |]; simpl; [|done..].
  intros [text' ->]. exists (text +:+ text'). by rewrite append_assoc.
Qed.

Lemma grows_bind (response : string) (m : Go C string)
    (k : string → Go C string) p :
  grows response (m p) →
  (∀ response' p1, grows response' (k response' p1)) →
  grows response (bind m k p).
Proof.
  intros Hm Hk. unfold bind. destruct (m p) as [response1 p1| |]; [|done..].
  destruct Hm as [text ->]. eapply grows_more, Hk.
Qed.

Lemma grows_describe_instance spaces orgs response instance p :
  grows response (describe_instance spaces orgs response instance p).
Proof.
  unfold describe_instance, bind, field, assert_string, ret, panic.
  repeat case_match; simplify_eq; simpl; try done.
  - eexists. by rewrite !append_assoc.
  - eexists. by rewrite !append_assoc.
Qed.

Lemma grows_describe_instances spaces orgs instances :
  ∀ response p, grows response (describe_instances spaces orgs response instances p).
Proof.
  induction instances as [|instance instances IH]; intros response p;
    cbn [describe_instances].
  - exists "". by rewrite append_empty_r.
  - apply grows_bind; [apply grows_describe_instance|]. intros; apply IH.
Qed.

Lemma grows_describe_plan spaces orgs response plan p :
  grows response (describe_plan spaces orgs response plan p).
Proof.
  unfold describe_plan, bind at 1, assert_string at 1.
  destruct (index (Entity plan) "service_instances_url"); try done.
  unfold ret at 1, bind at 1. destruct (curl s p) as [instances p1| |]; try done.
  destruct (0 <? TotalResults instances)%Z.
  - unfold bind at 1, assert_string at 1.
    destruct (index (Entity plan) "name"); try done. unfold ret at 1.
    eapply grows_more, grows_describe_instances.
  - exists "". by rewrite append_empty_r.
Qed.

Lemma grows_describe_plans spaces orgs plans :
  ∀ response p, grows response (describe_plans spaces orgs response plans p).
Proof.
  induction plans as [|plan plans IH]; intros response p; cbn [describe_plans].
  - exists "". by rewrite append_empty_r.
  - apply grows_bind; [apply grows_describe_plan|]. intros; apply IH.
Qed.

(** [DescribeBroker] only returns when it got as far as the loop. *)
Lemma DescribeBroker_returned p p' :
  DescribeBroker p = Returned tt p' →
  ∃ username plans spaces orgs p5, prepared p username plans spaces orgs p5.
Proof.
  unfold DescribeBroker. unfold bind at 1. unfold field at 1.
  unfold bind at 1.
  destruct (curl _ p) as [brokers p1| |] eqn:Hbrokers; [|done..].
  unfold bind at 1.
  destruct (TotalResults brokers =? 0)%Z eqn:Hfound; [done|].
  unfold when at 1, ret at 1. unfold bind at 1, first_resource at 1.
  destruct (Resources brokers) as [|r0 others] eqn:Hfirst; [done|].
  unfold ret at 1. unfold bind at 1.
  destruct (host_call Username CallUsername p1) as [username p2| |] eqn:Huser; [|done..].
  unfold bind at 1.
  destruct (curl _ p2) as [plans p3| |] eqn:Hplans; [|done..].
  unfold bind at 1.
  destruct (TotalResults plans =? 0)%Z eqn:Hsome; [done|].
  unfold when at 1, ret at 1. unfold bind at 1.
  destruct (host_call GetSpaces CallGetSpaces p3) as [spaces p4| |] eqn:Hspaces; [|done..].
  unfold bind at 1.
  destruct (getOrgs spaces p4) as [orgs p5| |] eqn:Horgs; [|done..].
  intros _. exists username, plans, spaces, orgs, p5.
  apply Z.eqb_neq in Hfound, Hsome. by econstructor.
Qed.

Lemma hushed_bind {A B} (m : Go C A) (k : A → Go C B) p :
  quiet p (m p) →
  (∀ a p1, m p = Returned a p1 → hushed p1 (k a p1)) →
  hushed p (bind m k p).
Proof.
  intros Hm Hk. unfold bind. destruct (m p) as [a p1|code p1|e p1] eqn:Hmp; simpl in Hm.
  - destruct Hm as [Hout _]. specialize (Hk a p1 eq_refl).
    destruct (k a p1) as [b p'|code p'|e p']; simpl in *; [done| |congruence].
    intros Hcode. by eapply decode_failure_from; eauto.
  - intros _. apply Hm.
  - apply Hm.
Qed.

Lemma hushed_unless_warned {B} (cond : bool) (message : string)
    (k : unit → Go C B) p :
  hushed p (k tt p) →
  hushed p (bind (when cond (Warn message)) k p).
Proof. destruct cond; [|done]. intros _ Hcode. discriminate Hcode. Qed.

Lemma DescribeBroker_hushed p : hushed p (DescribeBroker p).
Proof.
  unfold DescribeBroker.
  apply hushed_bind; [apply quiet_field|]. intros broker p0 _.
  apply hushed_bind; [apply quiet_curl|]. intros brokers p1 _.
  apply hushed_unless_warned.
  apply hushed_bind; [apply quiet_first_resource|]. intros r0 p2 _.
  apply hushed_bind; [apply quiet_host_call|]. intros username p3 _.
  apply hushed_bind; [apply quiet_curl|]. intros plans p4 _.
  apply hushed_unless_warned.
  apply hushed_bind; [apply quiet_host_call|]. intros spaces p5 _.
  apply hushed_bind; [apply quiet_getOrgs_from|]. intros orgs p6 _.
  apply hushed_bind; [apply quiet_describe_plans|]. intros response p7 _.
  done.
Qed.

(** *** Failures *)

(** C3. Whenever [DescribeBroker] ends the process with exit code 1, the
    last call to the host is a command whose output does not decode, and
    what was written is the message of [Fail] for it: nothing of the
    buffer.  When it panics, nothing was written.  When it returns, the
    buffer was written once, whole, at the end: the title, the text the
    loop added, and the line feed of [Println]. *)
Theorem DescribeBroker_failure_prints_no_report p :
  (∀ p', DescribeBroker p = Exited 1 p' → decode_failure p p')
  ∧ (∀ e p', DescribeBroker p = Panicked e p' → stdout p' = stdout p)
  ∧ (∀ p', DescribeBroker p = Returned tt p' →
       ∃ username text,
         stdout p' = stdout p +:+ report_title (brokerName (this p)) username
                       +:+ text +:+ LF).
Proof.
  pose proof (DescribeBroker_hushed p) as Hhushed.
  split; [|split].
  - intros p' Hexit. rewrite Hexit in Hhushed. by apply Hhushed.
  - intros e p' Hpanic. by rewrite Hpanic in Hhushed.
  - intros p' Hreturned.
    destruct (DescribeBroker_returned _ _ Hreturned)
      as (username & plans & spaces & orgs & p5 & Hprepared).
    destruct (prepared_kept _ _ _ _ _ _ Hprepared) as [Hout _].
    rewrite (DescribeBroker_prepared _ _ _ _ _ _ Hprepared) in Hreturned.
    unfold bind in Hreturned.
    pose proof (grows_describe_plans spaces orgs (Resources plans)
                  (report_title (brokerName (this p)) username) p5) as Hgrows.
    pose proof (quiet_describe_plans spaces orgs (Resources plans)
                  (report_title (brokerName (this p)) username) p5) as Hquiet.
    destruct (describe_plans _ _ _ _ p5) as [response p6| |]; [|done..].
    destruct Hgrows as [text ->]. destruct Hquiet as [Hout6 _].
    unfold print in Hreturned. injection Hreturned as <-. simpl.
    exists username, text. rewrite Hout6, Hout. by rewrite !append_assoc.
Qed.

(** *** [getOrgs] *)

Lemma getOrgs_from_app (before rest : list GetSpaces_Model) :
  ∀ orgs p,
    getOrgs_from orgs (before ++ rest) p
    = bind (getOrgs_from orgs before) (λ orgs', getOrgs_from orgs' rest) p.
Proof.
  induction before as [|space before IH]; intros orgs p; [done|].
  cbn [app getOrgs_from]. unfold bind.
  destruct (curl _ p) as [r p1| |]; [|done..].
  destruct (first_resource r p1) as [r0 p2| |]; [|done..].
  destruct (assert_string _ p2) as [name p3| |]; [|done..].
  apply IH.
Qed.

Lemma getOrgs_from_returned spaces :
  ∀ orgs0 p orgs p',
    getOrgs_from orgs0 spaces p = Returned orgs p' →
    (∀ guid, is_Some (orgs0 !! guid) → is_Some (orgs !! guid))
    ∧ (∀ space, space ∈ spaces → is_Some (orgs !! Guid space))
    ∧ ∃ new,
        calls p' = (calls p ++ new)%list
        ∧ length new = length spaces
        ∧ Forall answered_with_resource new.
Proof.
  induction spaces as [|space spaces IH]; intros orgs0 p orgs p'; cbn [getOrgs_from].
  - intros [= <- <-]. split; [done|]. split; [by intros ? ?%elem_of_nil|].
    exists []. by rewrite app_nil_r.
  - unfold bind at 1.
    destruct (curl _ p) as [r p1| |] eqn:Hcurl; [|done..].
    unfold bind at 1, first_resource at 1.
    destruct (Resources r) as [|r0 others] eqn:Hfirst; [done|].
    unfold ret at 1, bind at 1, assert_string at 1.
    destruct (index (Entity r0) "name") as [| | |name| |]; try done.
    unfold ret at 1. intros Hrest.
    destruct (IH _ _ _ _ Hrest) as (Hkept & Hcovered & new & Hcalls & Hlength & Hnew).
    destruct (curl_returned _ _ _ _ Hcurl) as (output & Hjson & Hcalls1).
    split; [|split].
    + intros guid Hguid. apply Hkept. rewrite lookup_insert.
      case_decide; [by eexists|]. exact Hguid.
    + intros space' [->|Hin]%elem_of_cons; [|by apply Hcovered].
      apply Hkept. by rewrite lookup_insert_eq.
    + exists (CallCommand ["curl"; "/v2/organizations?q=space_guid:" +:+ Guid space]
                output :: new).
      split; [by rewrite Hcalls, Hcalls1, <- app_assoc|].
      split; [simpl; by rewrite Hlength|].
      constructor; [|done]. exists ["curl"; "/v2/organizations?q=space_guid:" +:+ Guid space], output, r.
      repeat split; [done|]. by rewrite Hfirst.
Qed.

(** C10. [getOrgs] reads the first resource of every response without a
    check.  When it returns, the map has an entry for the guid of every
    space of its input, it made one query per space, and the output of
    every one of them decodes to a response with at least one resource.
    When the spaces in front have been dealt with and the response for the
    next space has no resource, [getOrgs] panics on the index. *)
Theorem getOrgs_first_resource_unchecked :
  (∀ spaces p orgs p',
      getOrgs spaces p = Returned orgs p' →
      (∀ space, space ∈ spaces → is_Some (orgs !! Guid space))
      ∧ ∃ new,
          calls p' = (calls p ++ new)%list
          ∧ length new = length spaces
          ∧ Forall answered_with_resource new)
  ∧ (∀ before space rest p orgs p1 r p2,
       getOrgs before p = Returned orgs p1 →
       curl ("/v2/organizations?q=space_guid:" +:+ Guid space) p1 = Returned r p2 →
       Resources r = [] →
       getOrgs (before ++ space :: rest) p = Panicked IndexOutOfRange p2).
Proof.
  split.
  - intros spaces p orgs p' Hreturned.
    by destruct (getOrgs_from_returned _ _ _ _ _ Hreturned) as (_ & ? & ?).
  - intros before space rest p orgs p1 r p2 Hbefore Hcurl Hempty.
    unfold getOrgs in *. rewrite getOrgs_from_app. unfold bind at 1.
    rewrite Hbefore. cbn [getOrgs_from]. unfold bind at 1. rewrite Hcurl.
    unfold bind at 1, first_resource. by rewrite Hempty.
Qed.

(** *** The report *)

Lemma report_nothing (show : bool) spaces orgs (pls : list PlanListing) :
  Forall (λ pl, plan_total pl = 0) pls → report show spaces orgs pls = "".
Proof.
  induction 1 as [|pl pls Hpl _ IH]; [done|].
  cbn [report]. unfold report_plan. by rewrite Hpl, IH.
Qed.

(** C7. When [DescribeBroker] got to the loop and the listings read as
    [pls], it returns and has written the title, the report and a line
    feed.  In the report every instance has its line; with guids shown the
    line is the indent, [Guid: <guid of the instance> - ] and the portion
    that starts with [Name:], and without them it is the indent and that
    portion alone, which does not depend on the guid.  (Every name and guid
    goes through the colour wrapper [Entity].) *)
Theorem DescribeBroker_show_guids p username plans spaces orgs p5 pls p6 :
  prepared p username plans spaces orgs p5 →
  listed (showGuids (this p)) p5 (Resources plans) pls p6 →
  DescribeBroker p
  = Returned tt
      (mkProc (this p6)
         (stdout p +:+ report_title (brokerName (this p)) username
            +:+ report (showGuids (this p)) spaces orgs pls +:+ LF)
         (calls p6))
  ∧ (∀ i, report_line true spaces orgs i
          = "  " +:+ "Guid: " +:+ Entity_ (instance_guid i) +:+ " - "
              +:+ name_portion spaces orgs i)
  ∧ (∀ i, report_line false spaces orgs i = "  " +:+ name_portion spaces orgs i).
Proof.
  intros Hprepared Hlisted. split; [by eapply DescribeBroker_listed|].
  split; intros i; unfold report_line; [|done].
  by rewrite !append_assoc.
Qed.

(** C6. When every listing has a count of zero, [DescribeBroker] returns
    and has written the title and a line feed: no line of a plan.  For one
    plan, once its listing is fetched: with a count of zero or less the
    buffer stays as it is, and with a positive count the line of the plan
    is added before the instances are gone through. *)
Theorem DescribeBroker_plans_without_instances :
  (∀ p username plans spaces orgs p5 pls p6,
      prepared p username plans spaces orgs p5 →
      listed (showGuids (this p)) p5 (Resources plans) pls p6 →
      Forall (λ pl, plan_total pl = 0) pls →
      DescribeBroker p
      = Returned tt
          (mkProc (this p6)
             (stdout p +:+ report_title (brokerName (this p)) username +:+ LF)
             (calls p6)))
  ∧ (∀ spaces orgs (response : string) plan (url : string) r p p1,
       index (Entity plan) "service_instances_url" = VString url →
       curl url p = Returned r p1 →
       ((TotalResults r ≤ 0)%Z →
          describe_plan spaces orgs response plan p = Returned response p1)
       ∧ ((0 < TotalResults r)%Z →
          ∀ name : string,
            index (Entity plan) "name" = VString name →
            describe_plan spaces orgs response plan p
            = describe_instances spaces orgs
                (response +:+ "Plan " +:+ Entity_ name +:+ ":" +:+ LF)
                (Resources r) p1)).
Proof.
  split.
  - intros p username plans spaces orgs p5 pls p6 Hprepared Hlisted Hzero.
    rewrite (DescribeBroker_listed p username plans spaces orgs p5 pls p6
               Hprepared Hlisted).
    by rewrite (report_nothing _ _ _ _ Hzero).
  - intros spaces orgs response plan url r p p1 Hurl Hcurl.
    split.
    + intros Hle. apply Z.ltb_ge in Hle.
      unfold describe_plan, bind at 1. rewrite Hurl. cbv [assert_string ret].
      unfold bind at 1. by rewrite Hcurl, Hle.
    + intros Hlt name Hname. apply Z.ltb_lt in Hlt.
      unfold describe_plan, bind at 1. rewrite Hurl. cbv [assert_string ret].
      unfold bind at 1. rewrite Hcurl, Hlt.
      unfold bind at 1. by rewrite Hname.
Qed.

(** C1, as amended. One plan [gold], whose listing has one instance [db1]
    in the space with guid [s1]; that space is [dev] and its organisation
    is [acme]; guids are not shown.  [DescribeBroker] returns and has
    written the title line with the broker and the user, an empty line,
    the line of the plan, the line of the instance, and the line feed of
    [Println]. *)
Theorem DescribeBroker_gold_db1 p username plans spaces orgs p5
    plan (url : string) instances instance p6 :
  prepared p username plans spaces orgs p5 →
  showGuids (this p) = false →
  Resources plans = [plan] →
  index (Entity plan) "name" = VString "gold" →
  index (Entity plan) "service_instances_url" = VString url →
  curl url p5 = Returned instances p6 →
  (0 < TotalResults instances)%Z →
  Resources instances = [instance] →
  index (Entity instance) "name" = VString "db1" →
  index (Entity instance) "space_guid" = VString "s1" →
  findSpace spaces "s1" = mkSpace "s1" "dev" →
  orgs !! "s1" = Some "acme" →
  DescribeBroker p
  = Returned tt
      (mkProc (this p6)
         (stdout p
            +:+ "Describing broker " +:+ Entity_ (brokerName (this p))
            +:+ " as visible by " +:+ Entity_ username +:+ LF +:+ LF
            +:+ "Plan " +:+ Entity_ "gold" +:+ ":" +:+ LF
            +:+ "  Name: " +:+ Entity_ "db1" +:+ " - Org: " +:+ Entity_ "acme"
            +:+ " - Space: " +:+ Entity_ "dev" +:+ LF
            +:+ LF)
         (calls p6)).
Proof.
  intros Hprepared Hshow Hplans Hgold Hurl Hcurl Hpos Hinstances Hdb1 Hs1 Hdev Hacme.
  assert (listed (showGuids (this p)) p5 (Resources plans)
            [mkListing "gold" (TotalResults instances) [mkInstance "" "db1" "s1"]] p6)
    as Hlisted.
  { rewrite Hplans. eapply listed_cons; [exact Hurl|exact Hcurl|done| |constructor].
    intros _. split; [exact Hgold|]. rewrite Hinstances.
    constructor; [|constructor]. rewrite Hshow. by repeat split. }
  rewrite (DescribeBroker_listed p username plans spaces orgs p5 _ p6
             Hprepared Hlisted).
  rewrite Hshow. cbn [report report_lines]. unfold report_plan. cbn [plan_total plan_name plan_instances].
  apply Z.ltb_lt in Hpos. rewrite Hpos. cbn [report_lines].
  unfold report_line, name_portion, report_title, org_name.
  cbn [instance_space instance_name]. rewrite Hdev. cbn [Guid Name].
  rewrite Hacme. cbn [default].
  rewrite !append_empty_r, !append_assoc. reflexivity.
Qed.

End Properties.

(** *** Examples *)

Lemma Run_describe_unparsable_flags_witness :
  flagSet_Parse ["-x"] = inl "flag provided but not defined: -x"
  ∧ ∃ p',
      Run Fixture.acme_host ["describe"; "-x"] (Fixture.start Fixture.acme_host)
      = Exited 1 p'
      ∧ calls p' = []
      ∧ stdout p' = "FAILED: cannot parse flags. Error: flag provided but not defined: -x".
Proof.
  split; [reflexivity|].
  exact (Run_describe_unparsable_flags Fixture.acme_host ["-x"]
           "flag provided but not defined: -x" (Fixture.start Fixture.acme_host)
           eq_refl).
Defined.

Lemma DescribeService_no_output_witness :
  flagSet_Parse ["-s"; "db1"] = inr (mkFlagValues "" "db1" false)
  ∧ Run Fixture.acme_host ["describe"; "-s"; "db1"] (Fixture.start Fixture.acme_host)
    = Returned tt (mkProc (mkPlugin Fixture.acme_host "" "db1" false) "" []).
Proof.
  split; [reflexivity|].
  exact (proj2 (DescribeService_no_output (Fixture.start Fixture.acme_host))
           Fixture.acme_host ["-s"; "db1"] "db1" false eq_refl).
Defined.

Lemma Run_describe_without_names_witness :
  flagSet_Parse ["-show-guids"] = inr (mkFlagValues "" "" true)
  ∧ Run Fixture.acme_host ["describe"; "-show-guids"] (Fixture.start Fixture.acme_host)
    = Returned tt (mkProc (mkPlugin Fixture.acme_host "" "" true) "" []).
Proof.
  split; [reflexivity|].
  exact (Run_describe_without_names Fixture.acme_host ["-show-guids"] true
           (Fixture.start Fixture.acme_host) eq_refl).
Defined.

(** The scenario of C1 on [Fixture.acme_host]: what is written is not the
    two lines alone, it has the title in front and the line feed of
    [Println] behind. *)
Lemma DescribeBroker_gold_db1_two_lines_refuted :
  stdout (final (DescribeBroker (Fixture.describing Fixture.acme_host "mysql" false)))
  = "Describing broker mysql as visible by admin" +:+ LF +:+ LF
      +:+ "Plan gold:" +:+ LF
      +:+ "  Name: db1 - Org: acme - Space: dev" +:+ LF +:+ LF
  ∧ stdout (final (DescribeBroker (Fixture.describing Fixture.acme_host "mysql" false)))
    ≠ "Plan gold:" +:+ LF +:+ "  Name: db1 - Org: acme - Space: dev" +:+ LF.
Proof. split; [vm_compute; reflexivity|vm_compute; discriminate]. Qed.

Lemma DescribeBroker_gold_db1_witness :
  ∃ p',
    DescribeBroker (Fixture.describing Fixture.acme_host "mysql" false)
    = Returned tt p'
    ∧ stdout p'
      = "Describing broker mysql as visible by admin" +:+ LF +:+ LF
          +:+ "Plan gold:" +:+ LF
          +:+ "  Name: db1 - Org: acme - Space: dev" +:+ LF +:+ LF.
Proof.
  eexists. split.
  - eapply (DescribeBroker_gold_db1
              (Fixture.describing Fixture.acme_host "mysql" false)).
    + eapply prepared_intro.
      * vm_compute; reflexivity.
      * vm_compute; discriminate.
      * vm_compute; reflexivity.
      * vm_compute; reflexivity.
      * vm_compute; reflexivity.
      * vm_compute; discriminate.
      * vm_compute; reflexivity.
      * vm_compute; reflexivity.
    + reflexivity.
    + vm_compute; reflexivity.
    + vm_compute; reflexivity.
    + vm_compute; reflexivity.
    + vm_compute; reflexivity.
    + vm_compute; reflexivity.
    + vm_compute; reflexivity.
    + vm_compute; reflexivity.
    + vm_compute; reflexivity.
    + vm_compute; reflexivity.
    + vm_compute; reflexivity.
  - vm_compute; reflexivity.
Defined.

Lemma DescribeBroker_nothing_to_show_witness :
  ∃ q,
    nothing_to_show (Fixture.describing Fixture.planless_host "mysql" false)
      "mysql has no plans" q
    ∧ DescribeBroker (Fixture.describing Fixture.planless_host "mysql" false)
      = Exited 0 (mkProc (this q) "mysql has no plans" (calls q))
    ∧ length (calls q) = 3%nat.
Proof.
  assert (∃ q, nothing_to_show (Fixture.describing Fixture.planless_host "mysql" false)
                 "mysql has no plans" q ∧ length (calls q) = 3%nat)
    as (q & Hnothing & Hlength).
  { eexists. split.
    - eapply (no_plans (Fixture.describing Fixture.planless_host "mysql" false)).
      + vm_compute; reflexivity.
      + vm_compute; discriminate.
      + vm_compute; reflexivity.
      + vm_compute; reflexivity.
      + vm_compute; reflexivity.
      + vm_compute; reflexivity.
    - reflexivity. }
  exists q. split; [exact Hnothing|]. split; [|exact Hlength].
  exact (proj1 (DescribeBroker_nothing_to_show _ _ _ Hnothing)).
Defined.

Lemma DescribeBroker_failure_prints_no_report_witness :
  ∃ p',
    DescribeBroker (Fixture.describing Fixture.broken_host "mysql" false)
    = Exited 1 p'
    ∧ decode_failure (Fixture.describing Fixture.broken_host "mysql" false) p'
    ∧ stdout p'
      = "FAILED: could not unmarshal response. Error: unexpected end of JSON input".
Proof.
  eexists. split; [vm_compute; reflexivity|]. split; [|reflexivity].
  apply (proj1 (DescribeBroker_failure_prints_no_report
                  (Fixture.describing Fixture.broken_host "mysql" false))).
  vm_compute; reflexivity.
Defined.

Lemma DescribeBroker_plans_without_instances_witness :
  ∃ p',
    DescribeBroker (Fixture.describing Fixture.idle_host "mysql" false)
    = Returned tt p'
    ∧ stdout p' = "Describing broker mysql as visible by admin" +:+ LF +:+ LF +:+ LF.
Proof.
  eexists. split.
  - eapply (proj1 DescribeBroker_plans_without_instances
              (Fixture.describing Fixture.idle_host "mysql" false)
              _ _ _ _ _ [mkListing "gold" 0 []; mkListing "silver" 0 []]).
    + eapply prepared_intro.
      * vm_compute; reflexivity.
      * vm_compute; discriminate.
      * vm_compute; reflexivity.
      * vm_compute; reflexivity.
      * vm_compute; reflexivity.
      * vm_compute; discriminate.
      * vm_compute; reflexivity.
      * vm_compute; reflexivity.
    + eapply listed_cons;
        [vm_compute; reflexivity|vm_compute; reflexivity|reflexivity|
          intros Hpos; discriminate Hpos|].
      eapply listed_cons;
        [vm_compute; reflexivity|vm_compute; reflexivity|reflexivity|
          intros Hpos; discriminate Hpos|].
      apply listed_nil.
    + repeat constructor.
  - vm_compute; reflexivity.
Defined.

Lemma DescribeBroker_show_guids_witness :
  ∃ p',
    DescribeBroker (Fixture.describing Fixture.acme_host "mysql" true)
    = Returned tt p'
    ∧ stdout p'
      = "Describing broker mysql as visible by admin" +:+ LF +:+ LF
          +:+ "Plan gold:" +:+ LF
          +:+ "  Guid: i1 - Name: db1 - Org: acme - Space: dev" +:+ LF +:+ LF.
Proof.
  eexists. split.
  - eapply proj1.
    eapply (DescribeBroker_show_guids
              (Fixture.describing Fixture.acme_host "mysql" true)
              _ _ _ _ _ [mkListing "gold" 1 [mkInstance "i1" "db1" "s1"]]).
    + eapply prepared_intro.
      * vm_compute; reflexivity.
      * vm_compute; discriminate.
      * vm_compute; reflexivity.
      * vm_compute; reflexivity.
      * vm_compute; reflexivity.
      * vm_compute; discriminate.
      * vm_compute; reflexivity.
      * vm_compute; reflexivity.
    + eapply listed_cons;
        [vm_compute; reflexivity|vm_compute; reflexivity|reflexivity| |apply listed_nil].
      intros _. split; [vm_compute; reflexivity|].
      constructor; [|constructor]. repeat split; vm_compute; reflexivity.
  - vm_compute; reflexivity.
Defined.

Lemma getOrgs_first_resource_unchecked_witness :
  (∃ orgs p',
      getOrgs [mkSpace "s1" "dev"] (Fixture.start Fixture.orphan_host)
      = Returned orgs p'
      ∧ is_Some (orgs !! "s1"))
  ∧ ∃ p',
      getOrgs [mkSpace "s1" "dev"; mkSpace "s2" "qa"] (Fixture.start Fixture.orphan_host)
      = Panicked IndexOutOfRange p'.
Proof.
  split.
  - eexists _, _. split; [vm_compute; reflexivity|].
    refine (proj1 (proj1 getOrgs_first_resource_unchecked [mkSpace "s1" "dev"]
                     (Fixture.start Fixture.orphan_host) _ _ _)
              (mkSpace "s1" "dev") _).
    + vm_compute; reflexivity.
    + by left.
  - eexists.
    eapply (proj2 getOrgs_first_resource_unchecked [mkSpace "s1" "dev"]
              (mkSpace "s2" "qa") [] (Fixture.start Fixture.orphan_host)).
    + vm_compute; reflexivity.
    + vm_compute; reflexivity.
    + reflexivity.
Defined.

(** The stand-ins at work. *)

Example Parse_broker_and_guids :
  Fixture.Parse ["-b"; "mysql"; "-show-guids"] = inr (mkFlagValues "mysql" "" true).
Proof. reflexivity. Qed.

Example Parse_stops_at_double_dash :
  Fixture.Parse ["--s=x"; "--"; "-b"] = inr (mkFlagValues "" "x" false).
Proof. reflexivity. Qed.

Example Parse_help : Fixture.Parse ["-h"] = inl "flag: help requested".
Proof. reflexivity. Qed.

Example QueryEscape_reserved : Fixture.QueryEscape "my sql/a&b" = "my+sql%2Fa%26b".
Proof. reflexivity. Qed.

(** [cf describe -b ghost]: the broker is unknown; one query, the warning,
    exit code 0. *)
Example Run_ghost_not_found :
  ∃ output,
    Run Fixture.planless_host ["describe"; "-b"; "ghost"]
      (Fixture.start Fixture.planless_host)
    = Exited 0
        (mkProc (mkPlugin Fixture.planless_host "ghost" "" false)
           "ghost not found"
           [CallCommand ["curl"; "/v2/service_brokers?q=name:ghost"] output]).
Proof. eexists. vm_compute. reflexivity. Qed.

(** [cf describe -b mysql -s db1]: both parts run; the second writes
    nothing. *)
Example Run_broker_and_service :
  stdout (final (Run Fixture.acme_host ["describe"; "-b"; "mysql"; "-s"; "db1"]
                   (Fixture.start Fixture.acme_host)))
  = "Describing broker mysql as visible by admin" +:+ LF +:+ LF
      +:+ "Plan gold:" +:+ LF
      +:+ "  Name: db1 - Org: acme - Space: dev" +:+ LF +:+ LF.
Proof. vm_compute. reflexivity. Qed.

(** ** More properties *)

Section MoreProperties.
Context {C : Type} `{!CliConnection C} `{!GoLibraries}.

Implicit Types (p : Proc C) (spaces : list GetSpaces_Model).

(** *** [findOrg] *)

(** X1. [findOrg] returns the first organisation of the list whose guid is
    the one asked for, and the zero value [GetOrgs_Model{}] when the list
    has none. *)
Theorem findOrg_first_match (orgs : list plugin_models.GetOrgs_Model)
    (orgGUID : string) :
  (∃ before o rest,
      orgs = (before ++ o :: rest)%list
      ∧ Forall (λ x, plugin_models.Guid x ≠ orgGUID) before
      ∧ plugin_models.Guid o = orgGUID
      ∧ findOrg orgs orgGUID = o)
  ∨ (Forall (λ x, plugin_models.Guid x ≠ orgGUID) orgs
     ∧ findOrg orgs orgGUID = plugin_models.mkGetOrgs_Model "" "").
Proof.
  induction orgs as [|o orgs IH]; [right; by split|].
  cbn [findOrg]. destruct (String.eqb_spec (plugin_models.Guid o) orgGUID) as [Heq|Hne].
  - left. exists [], o, orgs. by repeat split.
  - destruct IH as [(before & o' & rest & -> & Hbefore & Ho' & Hfind)|[Hall Hfind]].
    + left. exists (o :: before), o', rest. repeat split; auto.
    + right. split; auto.
Qed.

(** *** [Run] *)

(** X2. [Run] acts on the command [GetMetadata] registers and on no other:
    for any other first argument (the uninstall message of the host, say)
    it stores the connection and returns; it does not look at the
    arguments that follow, writes nothing, calls nothing and keeps the
    flags of the receiver.  With no argument at all it panics on
    [args[0]]. *)
Theorem Run_other_command (connection : C) p :
  (∀ (command : string) (arguments : list string),
      command ∉ plugin.Command_Name <$> plugin.PluginMetadata_Commands GetMetadata →
      Run connection (command :: arguments) p
      = Returned tt
          (mkProc (mkPlugin connection (brokerName (this p)) (serviceName (this p))
                     (showGuids (this p)))
                  (stdout p) (calls p)))
  ∧ Run connection [] p
    = Panicked IndexOutOfRange
        (mkProc (mkPlugin connection (brokerName (this p)) (serviceName (this p))
                   (showGuids (this p)))
                (stdout p) (calls p)).
Proof.
  split; [|reflexivity].
  intros command arguments Hother.
  assert (command ≠ "describe") as Hne.
  { intros ->. apply Hother. by left. }
  apply String.eqb_neq in Hne.
  unfold Run, bind, set_cliConnection. simpl. by rewrite Hne.
Qed.

(** X3. Once the arguments after [describe] parse, the outcome of [Run] is
    settled by the connection, the flags, and what was written and called
    before: the fields the receiver had are overwritten.  Without a broker
    name [Run] returns; with one its outcome is that of [DescribeBroker],
    whether a service instance is named or not. *)
Theorem Run_describe_parsed (connection : C) (arguments : list string)
    (values : FlagValues) p :
  flagSet_Parse arguments = inr values →
  let p0 :=
    mkProc (mkPlugin connection (flag_b values) (flag_s values)
              (flag_show_guids values))
           (stdout p) (calls p) in
  Run connection ("describe" :: arguments) p
  = if decide (flag_b values = "") then Returned tt p0 else DescribeBroker p0.
Proof.
  intros Hparse p0. destruct values as [b s guids]. cbn [flag_b flag_s flag_show_guids] in *.
  assert (Run connection ("describe" :: arguments) p
          = bind (when (negb (b =? "")%string) DescribeBroker)
              (λ _, service <- field serviceName;;
                    when (negb (service =? "")%string) DescribeService) p0) as ->.
  { unfold Run, ParseFlags, bind at 1, set_cliConnection. simpl.
    unfold bind at 1. by rewrite Hparse. }
  destruct (decide (b = "")) as [->|Hb].
  - unfold bind, when, field. simpl. by destruct (negb (s =? ""))%string.
  - apply String.eqb_neq in Hb. rewrite Hb. unfold bind at 1, when at 1. simpl.
    destruct (DescribeBroker p0) as [[] p'|code p'|e p']; [|done..].
    unfold bind, field, when. by destruct (negb (serviceName (this p') =? ""))%string.
Qed.

(** *** The calls to the host *)

Lemma calls_only_same {A} (P : HostCall → Prop) p (o : Outcome C A) :
  calls (final o) = calls p → calls_only P p o.
Proof. intros Hsame. exists []. split; [|done]. unfold called. by rewrite app_nil_r. Qed.

Lemma calls_only_bind {A B} (P : HostCall → Prop) (m : Go C A) (k : A → Go C B) p :
  calls_only P p (m p) →
  (∀ a p1, m p = Returned a p1 → calls_only P p1 (k a p1)) →
  calls_only P p (bind m k p).
Proof.
  intros (new & Hnew & HP) Hk. unfold bind.
  destruct (m p) as [a p1|code p1|e p1] eqn:Hmp; [|by exists new..].
  destruct (Hk a p1 eq_refl) as (new' & Hnew' & HP').
  exists (new ++ new')%list. split; [|by apply Forall_app].
  unfold called in *. simpl in Hnew. by rewrite Hnew', Hnew, app_assoc.
Qed.

Lemma calls_only_host_call {A} (P : HostCall → Prop) (method : C → A * C)
    (entry : A → HostCall) p :
  (∀ a, P (entry a)) → calls_only P p (host_call method entry p).
Proof.
  intros HP. rewrite host_call_returns. eexists. split; [reflexivity|].
  by constructor.
Qed.

Lemma only_curl_curl (endpoint : string) p : calls_only only_curl p (curl endpoint p).
Proof.
  unfold curl. apply calls_only_bind.
  - apply calls_only_host_call. intros output. by exists endpoint.
  - intros output p1 _. destruct (json_Unmarshal _); by apply calls_only_same.
Qed.

Lemma only_curl_assert_string (v : Value) p :
  calls_only only_curl p (assert_string v p).
Proof. destruct v; by apply calls_only_same. Qed.

Lemma only_curl_getOrgs_from spaces :
  ∀ orgs p, calls_only only_curl p (getOrgs_from orgs spaces p).
Proof.
  induction spaces as [|space spaces IH]; intros orgs p; cbn [getOrgs_from].
  - by apply calls_only_same.
  - apply calls_only_bind; [apply only_curl_curl|]. intros r p1 _.
    apply calls_only_bind.
    { unfold first_resource. destruct (Resources r); by apply calls_only_same. }
    intros r0 p2 _.
    apply calls_only_bind; [apply only_curl_assert_string|]. intros name p3 _.
    apply IH.
Qed.

(** Going through the instances of a listing touches nothing but the
    buffer. *)
Lemma describe_instance_pure spaces orgs response instance p :
  final (describe_instance spaces orgs response instance p) = p.
Proof.
  unfold describe_instance, bind, field, assert_string, ret, panic.
  repeat case_match; by simplify_eq.
Qed.

Lemma describe_instances_pure spaces orgs instances :
  ∀ response p, final (describe_instances spaces orgs response instances p) = p.
Proof.
  induction instances as [|instance instances IH]; intros response p;
    cbn [describe_instances]; [done|].
  unfold bind.
  pose proof (describe_instance_pure spaces orgs response instance p) as Hpure.
  destruct (describe_instance _ _ _ _ p) as [response' p'| |]; simpl in Hpure;
    subst; [apply IH|done..].
Qed.

Lemma only_curl_describe_plan spaces orgs response plan p :
  calls_only only_curl p (describe_plan spaces orgs response plan p).
Proof.
  unfold describe_plan.
  apply calls_only_bind; [apply only_curl_assert_string|]. intros url p1 _.
  apply calls_only_bind; [apply only_curl_curl|]. intros instances p2 _.
  destruct (0 <? TotalResults instances)%Z; [|by apply calls_only_same].
  apply calls_only_bind; [apply only_curl_assert_string|]. intros name p3 _.
  apply calls_only_same. by rewrite describe_instances_pure.
Qed.

Lemma only_curl_describe_plans spaces orgs plans :
  ∀ response p, calls_only only_curl p (describe_plans spaces orgs response plans p).
Proof.
  induction plans as [|plan plans IH]; intros response p; cbn [describe_plans].
  - by apply calls_only_same.
  - apply calls_only_bind; [apply only_curl_describe_plan|]. intros; apply IH.
Qed.

Lemma only_curl_unless_warned {B} (cond : bool) (message : string)
    (k : unit → Go C B) p :
  calls_only only_curl p (k tt p) →
  calls_only only_curl p (bind (when cond (Warn message)) k p).
Proof. destruct cond; [|done]. intros _. by apply calls_only_same. Qed.

Lemma only_curl_DescribeBroker p : calls_only only_curl p (DescribeBroker p).
Proof.
  unfold DescribeBroker.
  apply calls_only_bind; [by apply calls_only_same|]. intros broker p0 _.
  apply calls_only_bind; [apply only_curl_curl|]. intros brokers p1 _.
  apply only_curl_unless_warned.
  apply calls_only_bind.
  { unfold first_resource. destruct (Resources brokers); by apply calls_only_same. }
  intros r0 p2 _.
  apply calls_only_bind; [by apply calls_only_host_call|]. intros username p3 _.
  apply calls_only_bind; [apply only_curl_curl|]. intros plans p4 _.
  apply only_curl_unless_warned.
  apply calls_only_bind; [by apply calls_only_host_call|]. intros spaces p5 _.
  apply calls_only_bind; [apply only_curl_getOrgs_from|]. intros orgs p6 _.
  apply calls_only_bind; [apply only_curl_describe_plans|]. intros response p7 _.
  by apply calls_only_same.
Qed.

(** X4. Whatever the arguments, the host and the libraries do, and however
    [Run] ends (return, exit or panic), the log of host calls has only
    grown, and every command [Run] handed to the host is [curl] with one
    endpoint: the plugin runs no other command of the client. *)
Theorem Run_only_curl (connection : C) (args : list string) p :
  ∃ new,
    calls (final (Run connection args p)) = (calls p ++ new)%list
    ∧ Forall only_curl new.
Proof.
  change (calls_only only_curl p (Run connection args p)).
  unfold Run.
  apply calls_only_bind; [by apply calls_only_same|]. intros [] p0 _.
  destruct args as [|command arguments]; [by apply calls_only_same|].
  destruct (command =? "describe")%string; [|by apply calls_only_same].
  apply calls_only_bind.
  { unfold ParseFlags. destruct (flagSet_Parse arguments); by apply calls_only_same. }
  intros [] p1 _.
  apply calls_only_bind; [by apply calls_only_same|]. intros broker p2 _.
  apply calls_only_bind.
  { unfold when. destruct (negb _); [apply only_curl_DescribeBroker|by apply calls_only_same]. }
  intros [] p3 _.
  apply calls_only_bind; [by apply calls_only_same|]. intros service p4 _.
  unfold when. destruct (negb _); by apply calls_only_same.
Qed.

Lemma getOrgs_from_queries spaces :
  ∀ orgs0 p orgs p',
    getOrgs_from orgs0 spaces p = Returned orgs p' →
    ∃ new, calls p' = (calls p ++ new)%list ∧ Forall2 org_query spaces new.
Proof.
  induction spaces as [|space spaces IH]; intros orgs0 p orgs p'; cbn [getOrgs_from].
  - intros [= <- <-]. exists []. by rewrite app_nil_r.
  - unfold bind at 1.
    destruct (curl _ p) as [r p1| |] eqn:Hcurl; [|done..].
    unfold bind at 1, first_resource at 1.
    destruct (Resources r) as [|r0 others]; [done|].
    unfold ret at 1, bind at 1, assert_string at 1.
    destruct (index (Entity r0) "name") as [| | |name| |]; try done.
    unfold ret at 1. intros Hrest.
    destruct (IH _ _ _ _ Hrest) as (new & Hcalls & Hnew).
    destruct (curl_returned _ _ _ _ Hcurl) as (output & _ & Hcalls1).
    eexists (_ :: new). split; [by rewrite Hcalls, Hcalls1, <- app_assoc|].
    constructor; [by exists output|done].
Qed.

Lemma describe_plans_queries spaces orgs plans :
  ∀ response p response' p',
    describe_plans spaces orgs response plans p = Returned response' p' →
    ∃ new, calls p' = (calls p ++ new)%list ∧ Forall2 listing_query plans new.
Proof.
  induction plans as [|plan plans IH]; intros response p response' p';
    cbn [describe_plans].
  - intros [= <- <-]. exists []. by rewrite app_nil_r.
  - unfold bind at 1, describe_plan, bind at 1, assert_string at 1.
    destruct (index (Entity plan) "service_instances_url") as [| | |url| |] eqn:Hurl;
      try done.
    unfold ret at 1, bind at 1.
    destruct (curl url p) as [instances p1| |] eqn:Hcurl; [|done..].
    destruct (curl_returned _ _ _ _ Hcurl) as (output & _ & Hcalls1).
    assert (∀ o : Outcome C string,
              final o = p1 →
              match o with
              | Returned response1 p2 => describe_plans spaces orgs response1 plans p2
              | Exited code p2 => Exited code p2
              | Panicked e p2 => Panicked e p2
              end = Returned response' p' →
              ∃ new, calls p' = (calls p ++ new)%list
                     ∧ Forall2 listing_query (plan :: plans) new) as Hstep.
    { intros [response1 p2| |] Hfinal Hrest; [|done..]. simpl in Hfinal. subst p2.
      destruct (IH _ _ _ _ Hrest) as (new & Hcalls & Hnew).
      eexists (_ :: new). split; [by rewrite Hcalls, Hcalls1, <- app_assoc|].
      constructor; [by exists url, output|done]. }
    destruct (0 <? TotalResults instances)%Z.
    + unfold bind at 1, assert_string at 1.
      destruct (index (Entity plan) "name") as [| | |name| |]; try done.
      unfold ret at 1. apply Hstep, describe_instances_pure.
    + by apply Hstep.
Qed.

(** X5. When [DescribeBroker] returns, the calls it made are, in this
    order: the query for the broker (the name escaped), the user name, the
    query for the plans of the first broker of the answer, the spaces, one
    query per space for its organisation in the order of the spaces, and
    one query per plan of the answer for its instances, in the order of the
    plans and with the [service_instances_url] of the plan as endpoint.
    Nothing is cached: two spaces with the same guid are two queries. *)
Theorem DescribeBroker_queries p p' :
  DescribeBroker p = Returned tt p' →
  ∃ output brokers r0 others username output' plans spaces org_calls listing_calls,
    calls p'
    = (calls p
         ++ [ CallCommand
                ["curl"; "/v2/service_brokers?q=name:"
                           +:+ url_QueryEscape (brokerName (this p))]
                output;
              CallUsername username;
              CallCommand
                ["curl"; "/v2/service_plans?q=service_broker_guid:"
                           +:+ verb_s (index (Metadata r0) "guid")]
                output';
              CallGetSpaces spaces ]
         ++ org_calls ++ listing_calls)%list
    ∧ json_Unmarshal (strings_Join output "") = inr brokers
    ∧ Resources brokers = r0 :: others
    ∧ json_Unmarshal (strings_Join output' "") = inr plans
    ∧ Forall2 org_query spaces org_calls
    ∧ Forall2 listing_query (Resources plans) listing_calls.
Proof.
  intros Hreturned.
  destruct (DescribeBroker_returned _ _ Hreturned)
    as (username & plans & spaces & orgs & p5 & Hprepared).
  rewrite (DescribeBroker_prepared _ _ _ _ _ _ Hprepared) in Hreturned.
  destruct Hprepared as [brokers r0 others p1 username p2 plans p3 spaces p4 orgs p5
                           Hbrokers _ Hfirst Huser Hplans _ Hspaces Horgs].
  unfold bind in Hreturned.
  destruct (describe_plans _ _ _ _ p5) as [response p6| |] eqn:Hloop; [|done..].
  unfold print in Hreturned. injection Hreturned as <-.
  destruct (curl_returned _ _ _ _ Hbrokers) as (output & Hjson & Hcalls1).
  pose proof (host_call_logged _ _ _ _ _ Huser) as Hcalls2.
  destruct (curl_returned _ _ _ _ Hplans) as (output' & Hjson' & Hcalls3).
  pose proof (host_call_logged _ _ _ _ _ Hspaces) as Hcalls4.
  destruct (getOrgs_from_queries _ _ _ _ _ Horgs) as (org_calls & Hcalls5 & Horg).
  destruct (describe_plans_queries _ _ _ _ _ _ _ Hloop) as (listing_calls & Hcalls6 & Hlisting).
  exists output, brokers, r0, others, username, output', plans, spaces,
    org_calls, listing_calls.
  repeat split; try done. simpl.
  rewrite Hcalls6, Hcalls5, Hcalls4, Hcalls3, Hcalls2, Hcalls1.
  by rewrite <- !app_assoc.
Qed.

(** *** How [DescribeBroker] ends *)

Lemma quiet_exited {A} (m : Go C A) p code p' :
  quiet p (m p) → m p = Exited code p' → code = 1.
Proof. intros Hquiet Hm. rewrite Hm in Hquiet. apply Hquiet. Qed.

(** X6. [DescribeBroker] leaves with exit code 0 or 1 and no other.  Code 0
    means one thing: the query for the broker, or the query for the plans
    of a broker that is there, came back with a count of zero, and the
    warning for it was written.  Code 1 means that a response did not
    decode. *)
Theorem DescribeBroker_exit_codes p (code : Z) p' :
  DescribeBroker p = Exited code p' →
  (code = 0
   ∧ ∃ message q,
       nothing_to_show p message q
       ∧ p' = mkProc (this q)
                (stdout p +:+ fmt_Printf_format (terminal_WarningColor message))
                (calls q))
  ∨ (code = 1 ∧ decode_failure p p').
Proof.
  intros Hexit.
  pose proof (DescribeBroker_hushed p) as Hhushed. rewrite Hexit in Hhushed.
  simpl in Hhushed.
  cut (code = 1
       ∨ ∃ message q,
           code = 0 ∧ nothing_to_show p message q
           ∧ p' = mkProc (this q)
                    (stdout p +:+ fmt_Printf_format (terminal_WarningColor message))
                    (calls q)).
  { intros [Hcode|(message & q & Hcode & Hnothing & Hp')]; [right; auto|].
    left. split; [done|]. by exists message, q. }
  revert Hexit. unfold DescribeBroker. unfold bind at 1. unfold field at 1.
  unfold bind at 1.
  destruct (curl _ p) as [brokers p1|code1 p1|] eqn:Hbrokers; [| |done].
  2:{ intros [= <- <-]. left. by eapply quiet_exited; [apply quiet_curl|]. }
  destruct (quiet_returned _ _ _ _ (quiet_curl _ p) Hbrokers) as (Hout1 & _ & _).
  unfold bind at 1.
  destruct (TotalResults brokers =? 0)%Z eqn:Hfound.
  { apply Z.eqb_eq in Hfound. unfold when, Warn, bind, print, os_Exit.
    intros [= <- <-]. right. eexists _, p1. split; [done|].
    split; [by eapply no_broker|]. by rewrite Hout1. }
  apply Z.eqb_neq in Hfound.
  unfold when at 1, ret at 1. unfold bind at 1, first_resource at 1.
  destruct (Resources brokers) as [|r0 others] eqn:Hfirst; [done|].
  unfold ret at 1. unfold bind at 1.
  destruct (host_call Username CallUsername p1) as [username p2| |] eqn:Huser.
  2,3: by rewrite host_call_returns in Huser.
  destruct (quiet_returned _ _ _ _ (quiet_host_call _ _ p1) Huser) as (Hout2 & _ & _).
  unfold bind at 1.
  destruct (curl _ p2) as [plans p3|code3 p3|] eqn:Hplans; [| |done].
  2:{ intros [= <- <-]. left. by eapply quiet_exited; [apply quiet_curl|]. }
  destruct (quiet_returned _ _ _ _ (quiet_curl _ p2) Hplans) as (Hout3 & _ & _).
  unfold bind at 1.
  destruct (TotalResults plans =? 0)%Z eqn:Hsome.
  { apply Z.eqb_eq in Hsome. unfold when, Warn, bind, print, os_Exit.
    intros [= <- <-]. right. eexists _, p3. split; [done|].
    split; [by eapply no_plans|]. by rewrite Hout3, Hout2, Hout1. }
  unfold when at 1, ret at 1. unfold bind at 1.
  destruct (host_call GetSpaces CallGetSpaces p3) as [spaces p4| |] eqn:Hspaces.
  2,3: by rewrite host_call_returns in Hspaces.
  unfold bind at 1.
  destruct (getOrgs spaces p4) as [orgs p5|code5 p5|] eqn:Horgs; [| |done].
  2:{ intros [= <- <-]. left. by eapply quiet_exited; [apply quiet_getOrgs_from|]. }
  unfold bind at 1.
  destruct (describe_plans _ _ _ _ p5) as [response p6|code6 p6|] eqn:Hloop; [done| |done].
  intros [= <- <-]. left. by eapply quiet_exited; [apply quiet_describe_plans|].
Qed.

(** X7. A broker response that counts a result and holds no resource makes
    [DescribeBroker] panic on [Resources[0]]: the one query was made,
    nothing was written, and the warning for an unknown broker is not
    given. *)
Theorem DescribeBroker_broker_count_without_resource p brokers p1 :
  curl ("/v2/service_brokers?q=name:" +:+ url_QueryEscape (brokerName (this p))) p
    = Returned brokers p1 →
  TotalResults brokers ≠ 0 →
  Resources brokers = [] →
  DescribeBroker p = Panicked IndexOutOfRange p1
  ∧ stdout p1 = stdout p.
Proof.
  intros Hbrokers Hfound Hempty.
  destruct (quiet_returned _ _ _ _ (quiet_curl _ p) Hbrokers) as (Hout & _ & _).
  split; [|done]. apply Z.eqb_neq in Hfound.
  unfold DescribeBroker. unfold bind at 1. unfold field at 1.
  unfold bind at 1. rewrite Hbrokers.
  unfold bind at 1. rewrite Hfound. unfold when at 1, ret at 1.
  unfold bind at 1, first_resource at 1. by rewrite Hempty.
Qed.

(** *** Responses of another shape *)

Lemma string_or_not (v : Value) : (∃ s, v = VString s) ∨ (∀ s, v ≠ VString s).
Proof. destruct v; first [by left; eexists | by right]. Qed.

Lemma assert_string_panics (v : Value) p :
  (∀ s, v ≠ VString s) → assert_string v p = Panicked InterfaceConversion p.
Proof. intros Hv. destruct v; try done. by destruct (Hv s). Qed.

(** X8. Going through one instance never exits and never touches the
    process: either the resource reads as an instance ([space_guid] and
    [name] are strings, and [guid] too when guids are shown) and its line
    is added to the buffer, or it does not and the step panics on the
    type assertion. *)
Theorem describe_instance_outcome spaces (orgs : gmap string string)
    (response : string) (r : Resource) p :
  match describe_instance spaces orgs response r p with
  | Returned response' p' =>
      p' = p
      ∧ ∃ i, is_instance (showGuids (this p)) r i
             ∧ response' = response +:+ report_line (showGuids (this p)) spaces orgs i
  | Exited _ _ => False
  | Panicked e p' =>
      e = InterfaceConversion ∧ p' = p
      ∧ ¬ ∃ i, is_instance (showGuids (this p)) r i
  end.
Proof.
  destruct (string_or_not (index (Entity r) "space_guid")) as [[space Hspace]|Hspace].
  2:{ unfold describe_instance, bind at 1.
      rewrite (assert_string_panics _ _ Hspace). repeat split.
      intros (i & Hi & _). by destruct (Hspace (instance_space i)). }
  destruct (string_or_not (index (Entity r) "name")) as [[name Hname]|Hname].
  2:{ assert (describe_instance spaces orgs response r p
              = Panicked InterfaceConversion p) as ->.
      { unfold describe_instance, bind, field. rewrite Hspace.
        cbv [assert_string ret] in *.
        destruct (showGuids (this p)).
        - destruct (index (Metadata r) "guid"); try done.
          by destruct (index (Entity r) "name"); try done; destruct (Hname s0).
        - by destruct (index (Entity r) "name"); try done; destruct (Hname s). }
      repeat split. intros (i & _ & Hi & _). by destruct (Hname (instance_name i)). }
  destruct (showGuids (this p)) eqn:Hshow.
  - destruct (string_or_not (index (Metadata r) "guid")) as [[guid Hguid]|Hguid].
    + rewrite (describe_instance_read spaces orgs response r (mkInstance guid name space))
        by (rewrite Hshow; by repeat split).
      rewrite Hshow. split; [done|]. exists (mkInstance guid name space).
      by repeat split.
    + assert (describe_instance spaces orgs response r p
              = Panicked InterfaceConversion p) as ->.
      { unfold describe_instance, bind, field. rewrite Hspace.
        cbv [assert_string ret]. rewrite Hshow.
        by destruct (index (Metadata r) "guid"); try done; destruct (Hguid s). }
      repeat split. intros (i & _ & _ & Hi). by destruct (Hguid (instance_guid i)); auto.
  - rewrite (describe_instance_read spaces orgs response r (mkInstance "" name space))
      by (rewrite Hshow; by repeat split).
    rewrite Hshow. split; [done|]. exists (mkInstance "" name space).
    by repeat split.
Qed.

Lemma describe_plans_app spaces orgs (before rest : list Resource) :
  ∀ response p,
    describe_plans spaces orgs response (before ++ rest) p
    = bind (describe_plans spaces orgs response before)
        (λ response', describe_plans spaces orgs response' rest) p.
Proof.
  induction before as [|plan before IH]; intros response p; [done|].
  cbn [app describe_plans]. unfold bind.
  destruct (describe_plan spaces orgs response plan p) as [response' p'| |]; [|done..].
  apply IH.
Qed.

(** X9. A plan whose [service_instances_url] is missing or is not a string
    stops [DescribeBroker] with a panic on the type assertion, once the
    plans in front of it have been gone through: its listing is not
    fetched, the plans behind it are not looked at, and nothing is
    written, the lines of the plans in front included. *)
Theorem DescribeBroker_plan_without_url p username plans spaces orgs p5
    (before : list Resource) plan (rest : list Resource) pls p6 :
  prepared p username plans spaces orgs p5 →
  Resources plans = (before ++ plan :: rest)%list →
  listed (showGuids (this p)) p5 before pls p6 →
  (∀ url : string, index (Entity plan) "service_instances_url" ≠ VString url) →
  DescribeBroker p = Panicked InterfaceConversion p6
  ∧ stdout p6 = stdout p.
Proof.
  intros Hprepared Hplans Hlisted Hurl.
  destruct (prepared_kept _ _ _ _ _ _ Hprepared) as [Hout Hshow].
  pose proof (describe_plans_listed spaces orgs _ _ _ _ _ Hlisted Hshow
                (report_title (brokerName (this p)) username)) as Hbefore.
  destruct (quiet_returned _ _ _ _ (quiet_describe_plans _ _ _ _ p5) Hbefore)
    as (Hout6 & _ & _).
  split; [|congruence].
  rewrite (DescribeBroker_prepared _ _ _ _ _ _ Hprepared), Hplans.
  unfold bind at 1. rewrite describe_plans_app. unfold bind at 1. rewrite Hbefore.
  cbn [describe_plans]. unfold bind at 1, describe_plan, bind at 1.
  by rewrite (assert_string_panics _ _ Hurl).
Qed.

(** *** The map of [getOrgs] *)

Lemma orgs_answered_length p spaces (names : list string) p' :
  orgs_answered p spaces names p' → length names = length spaces.
Proof. induction 1; simpl; congruence. Qed.

Lemma getOrgs_from_answered p spaces (names : list string) p' :
  orgs_answered p spaces names p' →
  ∀ orgs, getOrgs_from orgs spaces p = Returned (org_map orgs spaces names) p'.
Proof.
  induction 1 as [p|p space r r0 others name p1 spaces names p' Hcurl Hfirst Hname _ IH];
    intros orgs; [done|].
  cbn [getOrgs_from org_map]. unfold bind at 1. rewrite Hcurl.
  unfold bind at 1, first_resource. rewrite Hfirst. unfold ret at 1.
  unfold bind at 1. rewrite Hname. apply IH.
Qed.

Lemma getOrgs_from_returned_answered spaces :
  ∀ orgs0 p orgs p',
    getOrgs_from orgs0 spaces p = Returned orgs p' →
    ∃ names, orgs_answered p spaces names p' ∧ orgs = org_map orgs0 spaces names.
Proof.
  induction spaces as [|space spaces IH]; intros orgs0 p orgs p'; cbn [getOrgs_from].
  - intros [= <- <-]. exists []. split; [constructor|done].
  - unfold bind at 1.
    destruct (curl _ p) as [r p1| |] eqn:Hcurl; [|done..].
    unfold bind at 1, first_resource at 1.
    destruct (Resources r) as [|r0 others] eqn:Hfirst; [done|].
    unfold ret at 1, bind at 1, assert_string at 1.
    destruct (index (Entity r0) "name") as [| | |name| |] eqn:Hname; try done.
    unfold ret at 1. intros Hrest.
    destruct (IH _ _ _ _ Hrest) as (names & Hanswered & ->).
    exists (name :: names). split; [by econstructor|done].
Qed.

Lemma org_map_lookup_other spaces :
  ∀ (names : list string) (orgs : gmap string string) (guid : string),
    guid ∉ Guid <$> spaces →
    org_map orgs spaces names !! guid = orgs !! guid.
Proof.
  induction spaces as [|space spaces IH]; intros [|name names] orgs guid Hother;
    cbn [org_map]; try done.
  rewrite fmap_cons, not_elem_of_cons in Hother. destruct Hother as [Hne Hother].
  rewrite IH by done. by rewrite lookup_insert_ne.
Qed.

Lemma org_map_lookup spaces :
  ∀ (names : list string) (orgs : gmap string string) (i : nat) space (name : string),
    spaces !! i = Some space →
    names !! i = Some name →
    Guid space ∉ Guid <$> drop (S i) spaces →
    org_map orgs spaces names !! Guid space = Some name.
Proof.
  induction spaces as [|space0 spaces IH];
    intros [|name0 names] orgs [|i] space name Hspace Hname Hlast;
    simplify_eq/=.
  - rewrite org_map_lookup_other by (by rewrite drop_0 in Hlast).
    by rewrite lookup_insert_eq.
  - by eapply IH.
Qed.

Lemma org_map_dom spaces :
  ∀ (names : list string) (orgs : gmap string string) (guid : string),
    length names = length spaces →
    is_Some (org_map orgs spaces names !! guid)
    ↔ is_Some (orgs !! guid) ∨ guid ∈ Guid <$> spaces.
Proof.
  induction spaces as [|space spaces IH]; intros [|name names] orgs guid Hlength;
    simplify_eq/=.
  - split; [by left|]. intros [?|Hin]; [done|]. by apply elem_of_nil in Hin.
  - rewrite IH by done. rewrite lookup_insert, elem_of_cons.
    case_decide as Hguid.
    + subst guid. split; [by right; left|]. intros _. left. by eexists.
    + split; [intros [?|?]; auto|]. intros [?|[?|?]]; auto. congruence.
Qed.

(** X10. [getOrgs] returns exactly when every query for a space decodes,
    has a first resource, and the [name] in it is a string.  The map it
    returns has the guids of the spaces for keys and no other; under the
    guid of a space it holds the name answered for that space, unless a
    later space of the list has the same guid and took the entry over. *)
Theorem getOrgs_answered p spaces p' :
  (∀ orgs : gmap string string,
      getOrgs spaces p = Returned orgs p' →
      ∃ names, orgs_answered p spaces names p' ∧ orgs = org_map ∅ spaces names)
  ∧ (∀ names : list string,
       orgs_answered p spaces names p' →
       getOrgs spaces p = Returned (org_map ∅ spaces names) p'
       ∧ (∀ guid : string,
            is_Some (org_map ∅ spaces names !! guid) ↔ guid ∈ Guid <$> spaces)
       ∧ (∀ (i : nat) space (name : string),
            spaces !! i = Some space →
            names !! i = Some name →
            Guid space ∉ Guid <$> drop (S i) spaces →
            org_map ∅ spaces names !! Guid space = Some name)).
Proof.
  split.
  - intros orgs Hreturned. by apply getOrgs_from_returned_answered.
  - intros names Hanswered. split; [by apply getOrgs_from_answered|]. split.
    + intros guid. rewrite org_map_dom by by eapply orgs_answered_length.
      rewrite lookup_empty. split; [intros [[? ?]|?]; done|by right].
    + intros i space name. apply org_map_lookup.
Qed.

Lemma findSpace_absent spaces (spaceGUID : string) :
  spaceGUID ∉ Guid <$> spaces → findSpace spaces spaceGUID = GetSpaces_Model_zero.
Proof.
  induction spaces as [|space spaces IH]; [done|].
  rewrite fmap_cons, not_elem_of_cons. intros [Hne Hother]. cbn [findSpace].
  apply not_eq_sym, String.eqb_neq in Hne. rewrite Hne. by apply IH.
Qed.

(** X11. An instance in a space the user does not see.  Its space is not
    in the list of [GetSpaces], so [findSpace] gives the zero value, whose
    guid is empty; [getOrgs] made no entry for the empty guid, as long as
    no visible space has it.  The line of the instance is written all the
    same, with an empty organisation and an empty space: there is no
    warning and no failure. *)
Theorem describe_instance_unknown_space spaces (orgs : gmap string string)
    (p0 p1 : Proc C) (response : string) (r : Resource) (i : Instance) p :
  getOrgs spaces p0 = Returned orgs p1 →
  is_instance (showGuids (this p)) r i →
  instance_space i ∉ Guid <$> spaces →
  "" ∉ Guid <$> spaces →
  describe_instance spaces orgs response r p
  = Returned
      (response +:+ "  "
         +:+ (if showGuids (this p)
              then "Guid: " +:+ Entity_ (instance_guid i) +:+ " - " else "")
         +:+ "Name: " +:+ Entity_ (instance_name i)
         +:+ " - Org: " +:+ Entity_ "" +:+ " - Space: " +:+ Entity_ "" +:+ LF)
      p.
Proof.
  intros Horgs Hi Hunknown Hempty.
  rewrite (describe_instance_read spaces orgs response r i) by done.
  unfold report_line, name_portion. rewrite findSpace_absent by done.
  cbn [Guid Name GetSpaces_Model_zero].
  destruct (getOrgs_from_returned_answered _ _ _ _ _ Horgs) as (names & Hanswered & ->).
  assert (org_map ∅ spaces names !! "" = None) as Hnone.
  { rewrite org_map_lookup_other by done. apply lookup_empty. }
  unfold org_name. rewrite Hnone. done.
Qed.

Lemma findSpace_first spaces :
  ∀ (k : nat) space,
    spaces !! k = Some space →
    Guid space ∉ Guid <$> take k spaces →
    findSpace spaces (Guid space) = space.
Proof.
  induction spaces as [|space0 spaces IH]; intros [|k] space Hspace Hfirst;
    simplify_eq/=.
  - by rewrite String.eqb_refl.
  - rewrite not_elem_of_cons in Hfirst. destruct Hfirst as [Hne Hfirst].
    apply not_eq_sym, String.eqb_neq in Hne. rewrite Hne. by eapply IH.
Qed.

(** X12. An instance in a space the user sees.  The space printed is the
    first of the list with the guid of the instance, the organisation
    printed is the name answered for the last space of the list with that
    guid: for a guid that is in the list once, the line has the name of
    that space and the organisation answered for it. *)
Theorem describe_instance_visible_space (p0 p1 : Proc C) spaces (names : list string)
    (k k' : nat) (space space' : GetSpaces_Model) (org : string)
    (response : string) (r : Resource) (i : Instance) p :
  orgs_answered p0 spaces names p1 →
  is_instance (showGuids (this p)) r i →
  spaces !! k = Some space →
  Guid space = instance_space i →
  Guid space ∉ Guid <$> take k spaces →
  spaces !! k' = Some space' →
  Guid space' = instance_space i →
  Guid space' ∉ Guid <$> drop (S k') spaces →
  names !! k' = Some org →
  getOrgs spaces p0 = Returned (org_map ∅ spaces names) p1
  ∧ describe_instance spaces (org_map ∅ spaces names) response r p
    = Returned
        (response +:+ "  "
           +:+ (if showGuids (this p)
                then "Guid: " +:+ Entity_ (instance_guid i) +:+ " - " else "")
           +:+ "Name: " +:+ Entity_ (instance_name i)
           +:+ " - Org: " +:+ Entity_ org
           +:+ " - Space: " +:+ Entity_ (Name space) +:+ LF)
        p.
Proof.
  intros Hanswered Hi Hspace Hguid Hfirst Hspace' Hguid' Hlast Horg.
  split; [by apply getOrgs_from_answered|].
  rewrite (describe_instance_read spaces _ response r i) by done.
  unfold report_line, name_portion. rewrite <- Hguid.
  rewrite (findSpace_first spaces k space) by done.
  assert (org_map ∅ spaces names !! Guid space = Some org) as Hlookup.
  { rewrite Hguid, <- Hguid'. by eapply org_map_lookup. }
  unfold org_name. by rewrite Hlookup.
Qed.

(** *** Every report has the shape of the specification *)

Lemma describe_instances_returned spaces orgs (rs : list Resource) :
  ∀ (response : string) p response' p',
    describe_instances spaces orgs response rs p = Returned response' p' →
    p' = p ∧ ∃ l, Forall2 (is_instance (showGuids (this p))) rs l.
Proof.
  induction rs as [|r rs IH]; intros response p response' p'; cbn [describe_instances].
  - intros [= <- <-]. split; [done|]. by exists [].
  - unfold bind.
    pose proof (describe_instance_pure spaces orgs response r p) as Hpure.
    destruct (describe_instance spaces orgs response r p)
      as [response1 p1| |] eqn:Hone; [|done..].
    simpl in Hpure. subst p1. intros Hrest.
    destruct (IH _ _ _ _ Hrest) as (-> & l & Hl). split; [done|].
    assert (∃ i, is_instance (showGuids (this p)) r i) as [i Hi].
    { revert Hone. unfold describe_instance, bind, field, assert_string, ret, panic.
      destruct (index (Entity r) "space_guid") as [| | |space| |] eqn:Hspace; try done.
      destruct (showGuids (this p)).
      - destruct (index (Metadata r) "guid") as [| | |guid| |] eqn:Hguid; try done.
        destruct (index (Entity r) "name") as [| | |name| |] eqn:Hname; try done.
        intros _. by exists (mkInstance guid name space).
      - destruct (index (Entity r) "name") as [| | |name| |] eqn:Hname; try done.
        intros _. by exists (mkInstance "" name space). }
    exists (i :: l). by constructor.
Qed.

Lemma describe_plans_returned_listed spaces orgs (plans : list Resource) :
  ∀ (response : string) p response' p',
    describe_plans spaces orgs response plans p = Returned response' p' →
    ∃ pls, listed (showGuids (this p)) p plans pls p'.
Proof.
  induction plans as [|plan plans IH]; intros response p response' p';
    cbn [describe_plans].
  - intros [= <- <-]. exists []. constructor.
  - unfold bind at 1, describe_plan, bind at 1, assert_string at 1.
    destruct (index (Entity plan) "service_instances_url") as [| | |url| |] eqn:Hurl;
      try done.
    unfold ret at 1, bind at 1.
    destruct (curl url p) as [instances p1| |] eqn:Hcurl; [|done..].
    destruct (quiet_returned _ _ _ _ (quiet_curl url p) Hcurl) as (_ & _ & Hshow).
    destruct (0 <? TotalResults instances)%Z eqn:Hpos.
    + unfold bind at 1, assert_string at 1.
      destruct (index (Entity plan) "name") as [| | |name| |] eqn:Hname; try done.
      unfold ret at 1.
      destruct (describe_instances spaces orgs _ (Resources instances) p1)
        as [response1 p2| |] eqn:Hinstances; [|done..].
      destruct (describe_instances_returned _ _ _ _ _ _ _ Hinstances) as (-> & l & Hl).
      intros Hrest. destruct (IH _ _ _ _ Hrest) as (pls & Hlisted).
      exists (mkListing name (TotalResults instances) l :: pls).
      rewrite Hshow in *.
      eapply listed_cons; [exact Hurl|exact Hcurl|done| |exact Hlisted].
      intros _. by split.
    + unfold ret at 1. intros Hrest. destruct (IH _ _ _ _ Hrest) as (pls & Hlisted).
      exists (mkListing "" (TotalResults instances) [] :: pls).
      rewrite Hshow in *.
      eapply listed_cons; [exact Hurl|exact Hcurl|done| |exact Hlisted].
      cbn [plan_total]. apply Z.ltb_ge in Hpos. lia.
Qed.

(** X13. [DescribeBroker] returns exactly when it gets as far as the loop
    over the plans and the listings it fetches read as plans with their
    instances; what it has written then is the title, the report of those
    listings and a line feed, whatever the host answered: plans in the
    order of the response, and under each the instances in the order of
    its listing. *)
Theorem DescribeBroker_returns_report p p' :
  DescribeBroker p = Returned tt p'
  ↔ ∃ username plans spaces orgs p5 pls p6,
      prepared p username plans spaces orgs p5
      ∧ listed (showGuids (this p)) p5 (Resources plans) pls p6
      ∧ p' = mkProc (this p6)
               (stdout p +:+ report_title (brokerName (this p)) username
                  +:+ report (showGuids (this p)) spaces orgs pls +:+ LF)
               (calls p6).
Proof.
  split.
  - intros Hreturned.
    destruct (DescribeBroker_returned _ _ Hreturned)
      as (username & plans & spaces & orgs & p5 & Hprepared).
    destruct (prepared_kept _ _ _ _ _ _ Hprepared) as [_ Hshow].
    pose proof Hreturned as Hloop.
    rewrite (DescribeBroker_prepared _ _ _ _ _ _ Hprepared) in Hloop.
    unfold bind in Hloop.
    destruct (describe_plans _ _ _ _ p5) as [response p6| |] eqn:Hplans; [|done..].
    destruct (describe_plans_returned_listed _ _ _ _ _ _ _ Hplans) as (pls & Hlisted).
    rewrite Hshow in Hlisted.
    exists username, plans, spaces, orgs, p5, pls, p6. split; [done|]. split; [done|].
    rewrite (DescribeBroker_listed p username plans spaces orgs p5 pls p6
               Hprepared Hlisted) in Hreturned.
    by injection Hreturned.
  - intros (username & plans & spaces & orgs & p5 & pls & p6 & Hprepared & Hlisted & ->).
    by eapply DescribeBroker_listed.
Qed.

End MoreProperties.

(** *** More examples *)

Lemma Run_other_command_witness :
  Run Fixture.acme_host ["CLI-MESSAGE-UNINSTALL"; "-x"] (Fixture.start Fixture.acme_host)
  = Returned tt (Fixture.start Fixture.acme_host).
Proof.
  apply (proj1 (Run_other_command Fixture.acme_host (Fixture.start Fixture.acme_host))
           "CLI-MESSAGE-UNINSTALL" ["-x"]).
  vm_compute. by intros [[=]|[]%elem_of_nil]%elem_of_cons.
Defined.

Lemma Run_describe_parsed_witness :
  flagSet_Parse ["-b"; "mysql"; "-s"; "db1"] = inr (mkFlagValues "mysql" "db1" false)
  ∧ Run Fixture.acme_host ["describe"; "-b"; "mysql"; "-s"; "db1"]
      (Fixture.start Fixture.acme_host)
    = DescribeBroker (mkProc (mkPlugin Fixture.acme_host "mysql" "db1" false) "" []).
Proof.
  split; [reflexivity|].
  exact (Run_describe_parsed Fixture.acme_host ["-b"; "mysql"; "-s"; "db1"]
           (mkFlagValues "mysql" "db1" false) (Fixture.start Fixture.acme_host) eq_refl).
Defined.

Lemma DescribeBroker_queries_witness :
  ∃ output brokers r0 others username output' plans spaces org_calls listing_calls,
    calls (final (DescribeBroker (Fixture.describing Fixture.acme_host "mysql" false)))
    = ([ CallCommand ["curl"; "/v2/service_brokers?q=name:mysql"] output;
         CallUsername username;
         CallCommand
           ["curl"; "/v2/service_plans?q=service_broker_guid:"
                      +:+ verb_s (index (Metadata r0) "guid")]
           output';
         CallGetSpaces spaces ]
         ++ org_calls ++ listing_calls)%list
    ∧ json_Unmarshal (strings_Join output "") = inr brokers
    ∧ Resources brokers = r0 :: others
    ∧ json_Unmarshal (strings_Join output' "") = inr plans
    ∧ Forall2 org_query spaces org_calls
    ∧ Forall2 listing_query (Resources plans) listing_calls.
Proof.
  refine (DescribeBroker_queries (Fixture.describing Fixture.acme_host "mysql" false)
            (final (DescribeBroker (Fixture.describing Fixture.acme_host "mysql" false)))
            _).
  vm_compute. reflexivity.
Defined.

Lemma DescribeBroker_exit_codes_witness :
  (0 = 0
   ∧ ∃ message q,
       nothing_to_show (Fixture.describing Fixture.planless_host "ghost" false) message q
       ∧ final (DescribeBroker (Fixture.describing Fixture.planless_host "ghost" false))
         = mkProc (this q)
             (stdout (Fixture.describing Fixture.planless_host "ghost" false)
                +:+ fmt_Printf_format (terminal_WarningColor message))
             (calls q))
  ∨ (0 = 1
     ∧ decode_failure (Fixture.describing Fixture.planless_host "ghost" false)
         (final (DescribeBroker (Fixture.describing Fixture.planless_host "ghost" false)))).
Proof.
  refine (DescribeBroker_exit_codes
            (Fixture.describing Fixture.planless_host "ghost" false) 0
            (final (DescribeBroker (Fixture.describing Fixture.planless_host "ghost" false)))
            _).
  vm_compute. reflexivity.
Defined.

Lemma DescribeBroker_returns_report_witness :
  ∃ p',
    DescribeBroker (Fixture.describing Fixture.acme_host "mysql" true) = Returned tt p'
    ∧ stdout p'
      = "Describing broker mysql as visible by admin" +:+ LF +:+ LF
          +:+ "Plan gold:" +:+ LF
          +:+ "  Guid: i1 - Name: db1 - Org: acme - Space: dev" +:+ LF +:+ LF.
Proof.
  eexists. split.
  - apply (proj2 (DescribeBroker_returns_report
                    (Fixture.describing Fixture.acme_host "mysql" true) _)).
    eexists _, _, _, _, _, [mkListing "gold" 1 [mkInstance "i1" "db1" "s1"]], _.
    split; [|split; [|reflexivity]].
    + eapply prepared_intro.
      * vm_compute; reflexivity.
      * vm_compute; discriminate.
      * vm_compute; reflexivity.
      * vm_compute; reflexivity.
      * vm_compute; reflexivity.
      * vm_compute; discriminate.
      * vm_compute; reflexivity.
      * vm_compute; reflexivity.
    + eapply listed_cons;
        [vm_compute; reflexivity|vm_compute; reflexivity|reflexivity| |apply listed_nil].
      intros _. split; [vm_compute; reflexivity|].
      constructor; [|constructor]. repeat split; vm_compute; reflexivity.
  - vm_compute; reflexivity.
Defined.

Section QuirkExamples.
#[local] Existing Instance Quirks.libraries.

Lemma DescribeBroker_broker_count_without_resource_witness :
  ∃ p1,
    DescribeBroker (Fixture.describing Quirks.counted_host "mysql" false)
    = Panicked IndexOutOfRange p1
    ∧ stdout p1 = "".
Proof.
  eexists.
  eapply (DescribeBroker_broker_count_without_resource
            (Fixture.describing Quirks.counted_host "mysql" false)).
  - vm_compute; reflexivity.
  - vm_compute; discriminate.
  - vm_compute; reflexivity.
Defined.

Lemma DescribeBroker_plan_without_url_witness :
  ∃ p6,
    DescribeBroker (Fixture.describing Quirks.bare_host "mysql" false)
    = Panicked InterfaceConversion p6
    ∧ stdout p6 = "".
Proof.
  eexists.
  eapply (DescribeBroker_plan_without_url
            (Fixture.describing Quirks.bare_host "mysql" false)
            _ _ _ _ _ [Fixture.gold] Quirks.bare_silver []
            [mkListing "gold" 1 [mkInstance "" "db1" "s1"]]).
  - eapply prepared_intro.
    + vm_compute; reflexivity.
    + vm_compute; discriminate.
    + vm_compute; reflexivity.
    + vm_compute; reflexivity.
    + vm_compute; reflexivity.
    + vm_compute; discriminate.
    + vm_compute; reflexivity.
    + vm_compute; reflexivity.
  - vm_compute; reflexivity.
  - eapply listed_cons;
      [vm_compute; reflexivity|vm_compute; reflexivity|reflexivity| |apply listed_nil].
    intros _. split; [vm_compute; reflexivity|].
    constructor; [|constructor]. repeat split; try (vm_compute; reflexivity).
    intros Hshow; discriminate Hshow.
  - intros url. vm_compute. discriminate.
Defined.

Lemma getOrgs_answered_witness :
  ∃ p',
    getOrgs [mkSpace "s1" "dev"; mkSpace "s2" "qa"] (Fixture.start Quirks.two_org_host)
    = Returned (org_map ∅ [mkSpace "s1" "dev"; mkSpace "s2" "qa"] ["acme"; "initech"]) p'
    ∧ org_map ∅ [mkSpace "s1" "dev"; mkSpace "s2" "qa"] ["acme"; "initech"] !! "s2"
      = Some "initech".
Proof.
  assert (∃ p', orgs_answered (Fixture.start Quirks.two_org_host)
                  [mkSpace "s1" "dev"; mkSpace "s2" "qa"] ["acme"; "initech"] p')
    as [p' Hanswered].
  { eexists.
    eapply orgs_answered_cons;
      [vm_compute; reflexivity|vm_compute; reflexivity|vm_compute; reflexivity|].
    eapply orgs_answered_cons;
      [vm_compute; reflexivity|vm_compute; reflexivity|vm_compute; reflexivity|].
    apply orgs_answered_nil. }
  exists p'.
  destruct (proj2 (getOrgs_answered _ _ _) _ Hanswered) as (Hreturned & _ & Hlookup).
  split; [exact Hreturned|].
  apply (Hlookup 1%nat (mkSpace "s2" "qa") "initech"); [reflexivity|reflexivity|].
  vm_compute. by intros ?%elem_of_nil.
Defined.

Lemma describe_instance_unknown_space_witness :
  ∃ orgs p1,
    getOrgs [mkSpace "s2" "qa"] (Fixture.start Quirks.two_org_host) = Returned orgs p1
    ∧ describe_instance [mkSpace "s2" "qa"] orgs "" Fixture.db1
        (Fixture.start Quirks.two_org_host)
      = Returned ("  Name: db1 - Org:  - Space: " +:+ LF)
          (Fixture.start Quirks.two_org_host).
Proof.
  eexists _, _. split; [vm_compute; reflexivity|].
  refine (describe_instance_unknown_space [mkSpace "s2" "qa"] _
            (Fixture.start Quirks.two_org_host) _ "" Fixture.db1
            (mkInstance "" "db1" "s1") (Fixture.start Quirks.two_org_host) _ _ _ _).
  - vm_compute; reflexivity.
  - repeat split; try (vm_compute; reflexivity). intros Hshow; discriminate Hshow.
  - vm_compute. by intros [[=]|[]%elem_of_nil]%elem_of_cons.
  - vm_compute. by intros [[=]|[]%elem_of_nil]%elem_of_cons.
Defined.

Lemma describe_instance_visible_space_witness :
  ∃ p1,
    getOrgs [mkSpace "s1" "dev"; mkSpace "s2" "qa"] (Fixture.start Quirks.two_org_host)
    = Returned (org_map ∅ [mkSpace "s1" "dev"; mkSpace "s2" "qa"] ["acme"; "initech"]) p1
    ∧ describe_instance [mkSpace "s1" "dev"; mkSpace "s2" "qa"]
        (org_map ∅ [mkSpace "s1" "dev"; mkSpace "s2" "qa"] ["acme"; "initech"])
        "" Fixture.db1 (Fixture.start Quirks.two_org_host)
      = Returned ("  Name: db1 - Org: acme - Space: dev" +:+ LF)
          (Fixture.start Quirks.two_org_host).
Proof.
  eexists.
  refine (describe_instance_visible_space (Fixture.start Quirks.two_org_host) _
            [mkSpace "s1" "dev"; mkSpace "s2" "qa"] ["acme"; "initech"]
            0%nat 0%nat (mkSpace "s1" "dev") (mkSpace "s1" "dev") "acme"
            "" Fixture.db1 (mkInstance "" "db1" "s1")
            (Fixture.start Quirks.two_org_host) _ _ _ _ _ _ _ _ _).
  - eapply orgs_answered_cons;
      [vm_compute; reflexivity|vm_compute; reflexivity|vm_compute; reflexivity|].
    eapply orgs_answered_cons;
      [vm_compute; reflexivity|vm_compute; reflexivity|vm_compute; reflexivity|].
    apply orgs_answered_nil.
  - repeat split; try (vm_compute; reflexivity). intros Hshow; discriminate Hshow.
  - reflexivity.
  - reflexivity.
  - vm_compute. by intros ?%elem_of_nil.
  - reflexivity.
  - reflexivity.
  - vm_compute. by intros [[=]|[]%elem_of_nil]%elem_of_cons.
  - reflexivity.
Defined.

End QuirkExamples.
